(** * Planner layer v2: scheduler, step lifecycle and artifact log

    A shallow embedding of [rfsn_controller/planner_v2/planner.py]
    ([PlannerV2.next_step], [update_state], [revise_plan], [is_complete]) and
    of [rfsn_controller/planner_v2/artifact_log.py] ([StepArtifact],
    [PlanArtifact], [PlanArtifactLog]).

    Python objects that the code mutates in place (the steps of a plan, the
    plan state, the log's dictionary of active records) are modelled by
    explicit state passing: an operation takes the plan and the state and
    returns the plan and the state it leaves behind.  A step object is
    referred to by its position in [plan.steps], so that two references to
    the same step stay the same reference after the step is mutated.

    Python [int] is [Z]; [str] is [string], by its UTF-8 bytes (the order
    and the prefixes of strings are those of their code points); a raised
    exception is the [Raise] branch of [result].  The log is kept together
    with the file system it writes to: [json.dumps] and [json.loads] act on
    the document a JSON text denotes, [pathlib] and the kernel on a tree of
    directories and files. *)

From stdpp Require Import base option list strings gmap sorting pretty.
From Stdlib Require Import ZArith Lia Ascii.
From Corelib Require PrimFloat.

Local Open Scope Z_scope.

(** ** Exceptions *)

(** The exceptions the code meets.  [FileNotFoundError], [NotADirectoryError]
    and [IsADirectoryError] are the subclasses of [OSError] that [open] and
    [os.stat] raise for a path; another [OSError] is kept by its [errno]. *)
Inductive Exn : Type :=
  | ValueError (msg : string)
  | KeyError (key : string)
  | TypeError (key : string)
  | FileNotFoundError (filename : string)
  | NotADirectoryError (filename : string)
  | IsADirectoryError (filename : string)
  | OSError (errno : Z) (filename : string).

Inductive result (A : Type) : Type :=
  | Ok (a : A)
  | Raise (e : Exn).

Arguments Ok {A} a.
Arguments Raise {A} e.

#[export] Instance result_ret : MRet result := fun A a => Ok a.

#[export] Instance result_bind : MBind result := fun A B k m =>
  match m with
  | Ok a => k a
  | Raise e => Raise e
  end.

(** ** Data model (schema) *)

Inductive StepStatus : Type := PENDING | ACTIVE | DONE | FAILED | SKIPPED.

Inductive RiskLevel : Type := LOW | MED | HIGH.

Definition StepStatus_eqb (a b : StepStatus) : bool :=
  match a, b with
  | PENDING, PENDING | ACTIVE, ACTIVE | DONE, DONE
  | FAILED, FAILED | SKIPPED, SKIPPED => true
  | _, _ => false
  end.

Definition RiskLevel_eqb (a b : RiskLevel) : bool :=
  match a, b with
  | LOW, LOW | MED, MED | HIGH, HIGH => true
  | _, _ => false
  end.

(** The inbound message of the executor. *)
Record ControllerOutcome : Type := mkOutcome {
  o_step_id : string;
  o_success : bool;
  o_error_message : option string;
  o_payload : list (string * string)
}.

(** Modelled from the spec: the [Step] dataclass of [schema.py], which is not
    among the sources.  The fields are those the specification lists; the
    outcome stored by [complete] is kept in [result_payload] and the reason recorded
    by [skip] in [skip_reason]. *)
Record Step : Type := mkStep {
  step_id : string;
  title : string;
  intent : string;
  allowed_files : list string;
  success_criteria : string;
  dependencies : list string;
  inputs : list string;
  verify : string;
  risk_level : RiskLevel;
  rollback_hint : string;
  controller_task_spec : list (string * string);
  status : StepStatus;
  failure_count : Z;
  result_payload : option ControllerOutcome;
  skip_reason : option string
}.

Definition set_status (st : StepStatus) (s : Step) : Step :=
  mkStep (step_id s) (title s) (intent s) (allowed_files s)
    (success_criteria s) (dependencies s) (inputs s) (verify s)
    (risk_level s) (rollback_hint s) (controller_task_spec s)
    st (failure_count s) (result_payload s) (skip_reason s).

Definition set_failure_count (n : Z) (s : Step) : Step :=
  mkStep (step_id s) (title s) (intent s) (allowed_files s)
    (success_criteria s) (dependencies s) (inputs s) (verify s)
    (risk_level s) (rollback_hint s) (controller_task_spec s)
    (status s) n (result_payload s) (skip_reason s).

Definition set_result_payload (r : option ControllerOutcome) (s : Step) : Step :=
  mkStep (step_id s) (title s) (intent s) (allowed_files s)
    (success_criteria s) (dependencies s) (inputs s) (verify s)
    (risk_level s) (rollback_hint s) (controller_task_spec s)
    (status s) (failure_count s) r (skip_reason s).

Definition set_skip_reason (r : option string) (s : Step) : Step :=
  mkStep (step_id s) (title s) (intent s) (allowed_files s)
    (success_criteria s) (dependencies s) (inputs s) (verify s)
    (risk_level s) (rollback_hint s) (controller_task_spec s)
    (status s) (failure_count s) (result_payload s) r.

(** Modelled from the spec: the [Plan] dataclass of [schema.py]. *)
Record Plan : Type := mkPlan {
  plan_id : string;
  goal : string;
  steps : list Step;
  version : Z;
  created_at : string;
  assumptions : list string;
  constraints : list string
}.

Definition set_steps (l : list Step) (p : Plan) : Plan :=
  mkPlan (plan_id p) (goal p) l (version p) (created_at p)
    (assumptions p) (constraints p).

Definition set_version (v : Z) (p : Plan) : Plan :=
  mkPlan (plan_id p) (goal p) (steps p) v (created_at p)
    (assumptions p) (constraints p).

(** Modelled from the spec: the [PlanState] dataclass of [schema.py]. *)
Record PlanState : Type := mkPlanState {
  current_step_idx : Z;
  completed_steps : list string;
  failed_steps : list string;
  consecutive_failures : Z;
  revision_count : Z;
  halted : bool;
  halt_reason : string
}.

Definition set_current_step_idx (i : Z) (s : PlanState) : PlanState :=
  mkPlanState i (completed_steps s) (failed_steps s)
    (consecutive_failures s) (revision_count s) (halted s) (halt_reason s).

Definition set_completed_steps (l : list string) (s : PlanState) : PlanState :=
  mkPlanState (current_step_idx s) l (failed_steps s)
    (consecutive_failures s) (revision_count s) (halted s) (halt_reason s).

Definition set_failed_steps (l : list string) (s : PlanState) : PlanState :=
  mkPlanState (current_step_idx s) (completed_steps s) l
    (consecutive_failures s) (revision_count s) (halted s) (halt_reason s).

Definition set_consecutive_failures (n : Z) (s : PlanState) : PlanState :=
  mkPlanState (current_step_idx s) (completed_steps s) (failed_steps s)
    n (revision_count s) (halted s) (halt_reason s).

Definition set_revision_count (n : Z) (s : PlanState) : PlanState :=
  mkPlanState (current_step_idx s) (completed_steps s) (failed_steps s)
    (consecutive_failures s) n (halted s) (halt_reason s).

Definition set_halt (reason : string) (s : PlanState) : PlanState :=
  mkPlanState (current_step_idx s) (completed_steps s) (failed_steps s)
    (consecutive_failures s) (revision_count s) true reason.

(** A fresh state, as a run starts with. *)
Definition fresh_state : PlanState :=
  mkPlanState 0 [] [] 0 0 false "".

(** A reference to a step object: its position in [plan.steps]. *)
Definition StepRef : Type := nat.

(** Modelled from the spec: [Plan.get_step(step_id)], the step the id
    resolves to (the first one in list order), or [None]. *)
Definition get_step (plan : Plan) (sid : string) : option (StepRef * Step) :=
  list_find (fun s => String.eqb (step_id s) sid = true) (steps plan).

(** Modelled from the spec: [Plan.get_step_index(step_id)].  The result for an
    id that does not resolve is not reached from [next_step], which passes
    the id of a step of the plan. *)
Definition get_step_index (plan : Plan) (sid : string) : Z :=
  match get_step plan sid with
  | Some (i, _) => Z.of_nat i
  | None => -1
  end.

(** The mutation of the step object behind a reference. *)
Definition store_step (plan : Plan) (r : StepRef) (s : Step) : Plan :=
  set_steps (<[r := s]> (steps plan)) plan.

(** ** Step lifecycle *)

Module StepLifecycle.

(** Why a step can or cannot be activated. *)
Inductive Reason : Type :=
  | Activatable
  | NotPending (st : StepStatus)
  | DependencyNotDone (dep : string).

(** Modelled from the spec: the retry ceiling of [lifecycle.py], which is
    not among the sources ("ceiling = 2, i.e. a step may be retried once
    automatically"). *)
Definition RETRY_CEILING : Z := 2.

(** A dependency is satisfied when its id resolves to a step that is
    [DONE]; an id that does not resolve, or a step in any other status
    ([SKIPPED] included), does not satisfy it. *)
Definition dependency_done (plan : Plan) (dep : string) : bool :=
  match get_step plan dep with
  | Some (_, d) => StepStatus_eqb (status d) DONE
  | None => false
  end.

(** Modelled from the spec: [can_activate(step, plan) -> (bool, reason)],
    "true iff status == PENDING and every id in dependencies resolves to a
    step whose status is DONE". *)
Definition can_activate (step : Step) (plan : Plan) : bool * Reason :=
  if StepStatus_eqb (status step) PENDING then
    match List.find (fun dep => negb (dependency_done plan dep))
                    (dependencies step) with
    | Some dep => (false, DependencyNotDone dep)
    | None => (true, Activatable)
    end
  else (false, NotPending (status step)).

(** Modelled from the spec: [activate(step)] sets [status = ACTIVE]; the
    part of its precondition that a step alone decides is
    [status == PENDING], and a call outside it fails loudly. *)
Definition activate (step : Step) : result Step :=
  if StepStatus_eqb (status step) PENDING then Ok (set_status ACTIVE step)
  else Raise (ValueError "activate: step is not PENDING").

(** Modelled from the spec: [complete(step, outcome_payload)] "requires
    status == ACTIVE; sets status = DONE; stores outcome payload". *)
Definition complete (step : Step) (payload : ControllerOutcome) : result Step :=
  if StepStatus_eqb (status step) ACTIVE then
    Ok (set_result_payload (Some payload) (set_status DONE step))
  else Raise (ValueError "complete: step is not ACTIVE").

(** Modelled from the spec: [fail(step, error_message) -> can_retry]
    "requires status == ACTIVE; increments failure_count; sets
    status = FAILED; returns whether failure_count is below a fixed retry
    ceiling". *)
Definition fail (step : Step) (error_message : string) : result (Step * bool) :=
  if StepStatus_eqb (status step) ACTIVE then
    let n := failure_count step + 1 in
    Ok (set_status FAILED (set_failure_count n step), n <? RETRY_CEILING)
  else Raise (ValueError "fail: step is not ACTIVE").

(** Modelled from the spec: [reset_for_retry(step)] "requires
    status == FAILED and retries remaining; sets status = PENDING without
    clearing failure_count". *)
Definition reset_for_retry (step : Step) : result Step :=
  if StepStatus_eqb (status step) FAILED
     && (failure_count step <? RETRY_CEILING) then
    Ok (set_status PENDING step)
  else Raise (ValueError "reset_for_retry: step is not FAILED with retries left").

(** Modelled from the spec: [can_skip(step)] "true iff
    risk_level != HIGH". *)
Definition can_skip (step : Step) : bool :=
  negb (RiskLevel_eqb (risk_level step) HIGH).

(** Modelled from the spec: [skip(step, reason)] "requires
    status == FAILED; sets status = SKIPPED; records reason". *)
Definition skip (step : Step) (reason : string) : result Step :=
  if StepStatus_eqb (status step) FAILED then
    Ok (set_skip_reason (Some reason) (set_status SKIPPED step))
  else Raise (ValueError "skip: step is not FAILED").

End StepLifecycle.

(** ** Scheduler ([PlannerV2])

    Every operation returns the plan and the state it leaves behind, next to
    its Python return value.  In each branch the lifecycle call is the first
    statement, so when it raises nothing has been mutated yet: [Raise] leaves
    the plan and the state that were passed in. *)

(** [outcome.to_dict()]: the payload handed to [complete]. *)
Definition outcome_to_dict (outcome : ControllerOutcome) : ControllerOutcome :=
  outcome.

(** [outcome.error_message or "Unknown error"]. *)
Definition error_message_or_default (outcome : ControllerOutcome) : string :=
  match o_error_message outcome with
  | Some msg => if String.eqb msg "" then "Unknown error" else msg
  | None => "Unknown error"
  end.

(** The body of the [for step in plan.steps] loop of [next_step], from
    position [i] on; [rest] are the steps not visited yet. *)
Fixpoint next_step_scan (plan : Plan) (state : PlanState) (i : StepRef)
    (rest : list Step) : result (option StepRef * Plan * PlanState) :=
  match rest with
  | [] => Ok (None, plan, state)
  | step :: rest' =>
      match status step with
      | PENDING =>
          if fst (StepLifecycle.can_activate step plan) then
            step' ← StepLifecycle.activate step;
            let plan' := store_step plan i step' in
            let state' :=
              set_current_step_idx (get_step_index plan' (step_id step')) state in
            Ok (Some i, plan', state')
          else next_step_scan plan state (S i) rest'
      | ACTIVE => Ok (Some i, plan, state)
      | _ => next_step_scan plan state (S i) rest'
      end
  end.

Definition next_step (plan : Plan) (state : PlanState)
    : result (option StepRef * Plan * PlanState) :=
  if halted state then Ok (None, plan, state)
  else next_step_scan plan state 0%nat (steps plan).

Definition update_state (plan : Plan) (state : PlanState)
    (outcome : ControllerOutcome) : result (Plan * PlanState) :=
  match get_step plan (o_step_id outcome) with
  | None => Ok (plan, state)
  | Some (r, step) =>
      if o_success outcome then
        step' ← StepLifecycle.complete step (outcome_to_dict outcome);
        let state :=
          set_completed_steps (completed_steps state ++ [o_step_id outcome]) state in
        let state := set_consecutive_failures 0 state in
        Ok (store_step plan r step', state)
      else
        '(step', can_retry) ← StepLifecycle.fail step (error_message_or_default outcome);
        let state :=
          set_failed_steps (failed_steps state ++ [o_step_id outcome]) state in
        let state :=
          set_consecutive_failures (consecutive_failures state + 1) state in
        let state :=
          if negb can_retry || (2 <=? consecutive_failures state) then
            set_halt ("Step " +:+ o_step_id outcome +:+ " failed "
                      +:+ pretty (failure_count step') +:+ " times") state
          else state in
        Ok (store_step plan r step', state)
  end.

Definition revise_plan (plan : Plan) (state : PlanState)
    (failure : ControllerOutcome) : result (Plan * PlanState) :=
  match get_step plan (o_step_id failure) with
  | None => Ok (plan, state)
  | Some (r, step) =>
      if failure_count step =? 1 then
        step' ← StepLifecycle.reset_for_retry step;
        let state := set_revision_count (revision_count state + 1) state in
        let state := set_consecutive_failures 0 state in
        let plan := set_version (version plan + 1) (store_step plan r step') in
        Ok (plan, state)
      else if (failure_count step =? 2) && StepLifecycle.can_skip step then
        step' ← StepLifecycle.skip step "Non-critical step failed twice";
        let state := set_revision_count (revision_count state + 1) state in
        let plan := set_version (version plan + 1) (store_step plan r step') in
        Ok (plan, state)
      else Ok (plan, state)
  end.

Definition is_complete (plan : Plan) (state : PlanState) : bool :=
  if halted state then true
  else forallb (fun step => StepStatus_eqb (status step) DONE
                            || StepStatus_eqb (status step) SKIPPED)
               (steps plan).

(** ** Artifact log *)

(** A key of a [dict] that has keys other than [str]: [json.dumps] writes an
    [int], a [bool] and [None] as text and refuses a key of any other type
    ([KOther]: a [tuple], [bytes], ...).  A [float] key, written as its
    [repr], is left out. *)
Inductive key : Type :=
  | KStr (s : string)
  | KInt (n : Z)
  | KBool (b : bool)
  | KNone
  | KOther (type_name : string).

(** The values a [Dict[str, Any]] of the log holds.  [JDict] is a [dict]
    whose keys are all [str]: a finite map (equality does not see the order of
    its keys).  [JMapping] is a [dict] with a key of another type, by its
    members in insertion order.  [JFloat] is a binary64 (all NaNs are one
    value).  [JOther] is an object of a type [json.dumps] refuses (a [set],
    [bytes], a [datetime], ...), by the name of its type.  Instances of
    subclasses of the built-in types are left out, and so are objects that
    refer to themselves. *)
#[warnings="-register-all"]
Inductive json : Type :=
  | JNull
  | JBool (b : bool)
  | JInt (n : Z)
  | JStr (s : string)
  | JList (l : list json)
  | JDict (d : gmap string json)
  | JFloat (x : PrimFloat.float)
  | JTuple (l : list json)
  | JMapping (members : list (key * json))
  | JOther (type_name : string).

(** [data[key]]: [KeyError] when the key is absent. *)
Definition getitem (data : gmap string json) (key : string) : result json :=
  match data !! key with
  | Some v => Ok v
  | None => Raise (KeyError key)
  end.

(** [data.get(key, default)]. *)
Definition get_default (data : gmap string json) (key : string)
    (default : json) : json :=
  match data !! key with
  | Some v => v
  | None => default
  end.

(** The dataclasses declare the types of their fields; a document whose value
    at [key] is of another type has no counterpart among the typed records and
    is reported as ill-typed. *)
Definition as_str (key : string) (v : json) : result string :=
  match v with JStr s => Ok s | _ => Raise (TypeError key) end.

Definition as_int (key : string) (v : json) : result Z :=
  match v with JInt n => Ok n | _ => Raise (TypeError key) end.

Definition as_dict (key : string) (v : json) : result (gmap string json) :=
  match v with JDict d => Ok d | _ => Raise (TypeError key) end.

Definition as_list (key : string) (v : json) : result (list json) :=
  match v with JList l => Ok l | _ => Raise (TypeError key) end.

(** A list comprehension whose body can raise: the first exception ends it. *)
Fixpoint traverse {A B : Type} (f : A -> result B) (l : list A) : result (list B) :=
  match l with
  | [] => Ok []
  | x :: l' => y ← f x; ys ← traverse f l'; Ok (y :: ys)
  end.

Module StepArtifact.

Record t : Type := mk {
  step_id : string;
  task_spec_json : string;
  outcome_json : string;
  diff_summary_hash : string;
  wall_clock_ms : Z;
  timestamp : string;
  files_touched : list string
}.

Definition to_dict (self : t) : gmap string json :=
  <["step_id" := JStr (step_id self)]>
  (<["task_spec_json" := JStr (task_spec_json self)]>
  (<["outcome_json" := JStr (outcome_json self)]>
  (<["diff_summary_hash" := JStr (diff_summary_hash self)]>
  (<["wall_clock_ms" := JInt (wall_clock_ms self)]>
  (<["timestamp" := JStr (timestamp self)]>
  (<["files_touched" := JList (JStr <$> files_touched self)]> ∅)))))).

Definition from_dict (data : gmap string json) : result t :=
  step_id ← getitem data "step_id" ≫= as_str "step_id";
  task_spec_json ← getitem data "task_spec_json" ≫= as_str "task_spec_json";
  outcome_json ← getitem data "outcome_json" ≫= as_str "outcome_json";
  diff_summary_hash ← getitem data "diff_summary_hash" ≫= as_str "diff_summary_hash";
  wall_clock_ms ← getitem data "wall_clock_ms" ≫= as_int "wall_clock_ms";
  timestamp ← getitem data "timestamp" ≫= as_str "timestamp";
  files_touched ← as_list "files_touched" (get_default data "files_touched" (JList []))
                  ≫= traverse (as_str "files_touched");
  Ok (mk step_id task_spec_json outcome_json diff_summary_hash wall_clock_ms
         timestamp files_touched).

End StepArtifact.

(** *** The [json] module *)

(** A JSON text, up to its layout (the indentation, the escapes of a string,
    the spelling of a number): the document it denotes.  An object is the
    sequence of its members, which may repeat a name; [DInt] is a number
    written without fraction and exponent, [DFloat] any other number and the
    tokens [NaN], [Infinity] and [-Infinity]. *)
#[warnings="-register-all"]
Inductive document : Type :=
  | DNull
  | DBool (b : bool)
  | DInt (n : Z)
  | DFloat (x : PrimFloat.float)
  | DString (s : string)
  | DArray (items : list document)
  | DObject (members : list (string * document)).

(** What a [str] or a file holds: a JSON text, or anything else. *)
Inductive text : Type :=
  | Json (d : document)
  | Malformed (content : string).

(** [sys.int_info.default_max_str_digits]: an [int] of more decimal digits
    is converted neither to text nor from text. *)
Definition MAX_STR_DIGITS : Z := 4300.

Definition within_digit_limit (n : Z) : bool :=
  Z.abs n <? 10 ^ MAX_STR_DIGITS.

Definition digit_limit_exceeded : Exn :=
  ValueError "Exceeds the limit (4300 digits) for integer string conversion".

(** The name [json.dumps] writes for a key. *)
Definition key_str (k : key) : result string :=
  match k with
  | KStr s => Ok s
  | KInt n => if within_digit_limit n then Ok (pretty n) else Raise digit_limit_exceeded
  | KBool true => Ok "true"
  | KBool false => Ok "false"
  | KNone => Ok "null"
  | KOther type_name =>
      Raise (TypeError ("keys must be str, int, float, bool or None, not "
                        +:+ type_name))
  end.

(** [json.JSONEncoder]: a [tuple] is written as a [list] is; the members of a
    [dict] are written in the order the dictionary enumerates them (for a
    [JDict], that of [map_to_list]; Python's is the insertion order, which
    the map does not keep and which decides no more than which exception is
    raised when several members are refused).  Nesting deep enough to exhaust
    the interpreter's stack is outside the model. *)
Fixpoint json_encode (v : json) : result document :=
  match v with
  | JNull => Ok DNull
  | JBool b => Ok (DBool b)
  | JInt n => if within_digit_limit n then Ok (DInt n) else Raise digit_limit_exceeded
  | JFloat x => Ok (DFloat x)
  | JStr s => Ok (DString s)
  | JList l | JTuple l => items ← traverse json_encode l; Ok (DArray items)
  | JDict d =>
      members ← map_fold (fun k x rest => y ← json_encode x; ms ← rest; Ok ((k, y) :: ms))
                         (Ok []) d;
      Ok (DObject members)
  | JMapping members =>
      members ← traverse (fun '(k, x) => name ← key_str k; y ← json_encode x; Ok (name, y))
                         members;
      Ok (DObject members)
  | JOther type_name =>
      Raise (TypeError ("Object of type " +:+ type_name
                        +:+ " is not JSON serializable"))
  end.



(** [json.dumps(v, indent=2)]. *)
Definition dumps (v : json) : result text :=
  d ← json_encode v; Ok (Json d).




Module PlanArtifact.

Record t : Type := mk {
  plan_id : string;
  plan_json : string;
  repo_fingerprint : string;
  step_artifacts : list StepArtifact.t;
  start_time : string;
  end_time : string;
  final_status : string;
  metadata : gmap string json
}.

Definition to_dict (self : t) : gmap string json :=
  <["plan_id" := JStr (plan_id self)]>
  (<["plan_json" := JStr (plan_json self)]>
  (<["repo_fingerprint" := JStr (repo_fingerprint self)]>
  (<["step_artifacts" :=
      JList ((fun s => JDict (StepArtifact.to_dict s)) <$> step_artifacts self)]>
  (<["start_time" := JStr (start_time self)]>
  (<["end_time" := JStr (end_time self)]>
  (<["final_status" := JStr (final_status self)]>
  (<["metadata" := JDict (metadata self)]> ∅))))))).

Definition from_dict (data : gmap string json) : result t :=
  plan_id ← getitem data "plan_id" ≫= as_str "plan_id";
  plan_json ← getitem data "plan_json" ≫= as_str "plan_json";
  repo_fingerprint ← getitem data "repo_fingerprint" ≫= as_str "repo_fingerprint";
  step_artifacts ← as_list "step_artifacts" (get_default data "step_artifacts" (JList []))
                   ≫= traverse (fun s => as_dict "step_artifacts" s ≫= StepArtifact.from_dict);
  start_time ← getitem data "start_time" ≫= as_str "start_time";
  end_time ← getitem data "end_time" ≫= as_str "end_time";
  final_status ← getitem data "final_status" ≫= as_str "final_status";
  metadata ← as_dict "metadata" (get_default data "metadata" (JDict ∅));
  Ok (mk plan_id plan_json repo_fingerprint step_artifacts start_time end_time
         final_status metadata).

Definition to_json (self : t) : result text :=
  dumps (JDict (to_dict self)).



End PlanArtifact.

(** *** Files *)

(** The file system, as far as the log uses it: a tree of directories and
    regular files.  Symbolic links, permissions and the space left on the
    device are outside the model; the limits on the length of a name and of
    a path are those of Linux. *)
#[warnings="-register-all"]
Inductive node : Type :=
  | File (content : text)
  | Dir (entries : gmap string node).

(** A place in the tree: the names from the root down. *)
Definition location : Type := list string.

Fixpoint node_at (n : node) (loc : location) : option node :=
  match loc with
  | [] => Some n
  | name :: loc' =>
      match n with
      | Dir entries =>
          match entries !! name with
          | Some n' => node_at n' loc'
          | None => None
          end
      | File _ => None
      end
  end.

(** The tree with [new] at [loc], in a directory that exists. *)
Fixpoint put (n : node) (loc : location) (new : node) : node :=
  match loc with
  | [] => new
  | name :: loc' =>
      match n with
      | Dir entries =>
          match loc' with
          | [] => Dir (<[name := new]> entries)
          | _ :: _ =>
              match entries !! name with
              | Some n' => Dir (<[name := put n' loc' new]> entries)
              | None => n
              end
          end
      | File _ => n
      end
  end.

(** The tree and the working directory of the process. *)
Record filesystem : Type := mkFS {
  tree : node;
  cwd : location
}.

(** [pathlib.PurePosixPath]: the root ([""], ["/"] or ["//"]) and the parts
    after it. *)
Record Path : Type := mkPath {
  root : string;
  parts : list string
}.

(** [s.split("/")]. *)
Fixpoint split_slash (s : string) : list string :=
  match s with
  | "" => [""]
  | String c s' =>
      if Ascii.eqb c "/"%char then "" :: split_slash s'
      else match split_slash s' with
           | x :: xs => String c x :: xs
           | [] => [String c ""]
           end
  end.

(** [PurePosixPath(s)]: empty parts and ["."] are dropped, [".."] is kept;
    exactly two leading slashes are kept as the root. *)
Definition parse_path (s : string) : Path :=
  mkPath
    (if String.prefix "//" s && negb (String.prefix "///" s) then "//"
     else if String.prefix "/" s then "/" else "")
    (List.filter (fun part => negb (String.eqb part "" || String.eqb part "."))
                 (split_slash s)).

(** [self / name]. *)
Definition joinpath (self : Path) (name : string) : Path :=
  let child := parse_path name in
  if String.eqb (root child) "" then mkPath (root self) (parts self ++ parts child)
  else child.

(** [str(self)]. *)
Definition path_str (self : Path) : string :=
  let s := root self +:+ String.concat "/" (parts self) in
  if String.eqb s "" then "." else s.

Fixpoint has_char (c : Ascii.ascii) (s : string) : bool :=
  match s with
  | "" => false
  | String a s' => Ascii.eqb a c || has_char c s'
  end.




Definition NAME_MAX : nat := 255.

Definition PATH_MAX : nat := 4096.

Definition ENAMETOOLONG : Z := 36.

(** The walk of the kernel from the directory at [cur] through the
    directories [names]; lengths are in bytes. *)
Fixpoint walk (n : node) (cur : location) (names : list string)
    (filename : string) : result location :=
  match names with
  | [] => Ok cur
  | name :: names' =>
      if String.eqb name ".." then walk n (removelast cur) names' filename
      else if (NAME_MAX <? String.length name)%nat
      then Raise (OSError ENAMETOOLONG filename)
      else match node_at n (cur ++ [name]) with
           | Some (Dir _) => walk n (cur ++ [name]) names' filename
           | Some (File _) => Raise (NotADirectoryError filename)
           | None => Raise (FileNotFoundError filename)
           end
  end.

(** The place a path names, in a directory that exists; nothing need be at
    the place itself. *)
Definition locate (fs : filesystem) (p : Path) : result location :=
  let filename := path_str p in
  if has_char "000"%char filename then Raise (ValueError "embedded null byte")
  else if (PATH_MAX <=? String.length filename)%nat
  then Raise (OSError ENAMETOOLONG filename)
  else
    let start := if String.eqb (root p) "" then cwd fs else [] in
    match node_at (tree fs) start with
    | Some (Dir _) =>
        cur ← walk (tree fs) start (removelast (parts p)) filename;
        match last (parts p) with
        | None => Ok cur
        | Some name =>
            if String.eqb name ".." then Ok (removelast cur)
            else if (NAME_MAX <? String.length name)%nat
            then Raise (OSError ENAMETOOLONG filename)
            else Ok (cur ++ [name])
        end
    | _ => Raise (FileNotFoundError filename)
    end.




(** [p.write_text(data)]: the file is made or replaced. *)
Definition write_text (fs : filesystem) (p : Path) (data : text)
    : result filesystem :=
  loc ← locate fs p;
  match node_at (tree fs) loc with
  | Some (Dir _) => Raise (IsADirectoryError (path_str p))
  | _ => Ok (mkFS (put (tree fs) loc (File data)) (cwd fs))
  end.


(** A reading of the UTC clock ([datetime.now(timezone.utc)]). *)
Record datetime : Type := mkDatetime {
  year : nat;
  month : nat;
  day : nat;
  hour : nat;
  minute : nat;
  second : nat;
  microsecond : nat
}.

Definition digit (n : nat) : Ascii.ascii :=
  Ascii.ascii_of_nat (48 + n mod 10).

(** The last [width] decimal digits of [n], zero padded ([%m], [%d], ... and
    [%Y] for a four digit year). *)
Fixpoint zero_pad (width : nat) (n : nat) : string :=
  match width with
  | O => ""
  | S w => zero_pad w (n / 10)%nat +:+ String (digit n) ""
  end.

(** [strftime("%Y%m%d_%H%M%S")]. *)
Definition strftime_compact (now : datetime) : string :=
  zero_pad 4 (year now) +:+ zero_pad 2 (month now) +:+ zero_pad 2 (day now)
  +:+ "_" +:+ zero_pad 2 (hour now) +:+ zero_pad 2 (minute now)
  +:+ zero_pad 2 (second now).

(** [isoformat()] of an aware UTC datetime. *)
Definition isoformat (now : datetime) : string :=
  zero_pad 4 (year now) +:+ "-" +:+ zero_pad 2 (month now) +:+ "-"
  +:+ zero_pad 2 (day now) +:+ "T" +:+ zero_pad 2 (hour now) +:+ ":"
  +:+ zero_pad 2 (minute now) +:+ ":" +:+ zero_pad 2 (second now)
  +:+ (if Nat.eqb (microsecond now) 0 then ""
       else "." +:+ zero_pad 6 (microsecond now))
  +:+ "+00:00".

(** Chronological order of two clock readings. *)
Definition datetime_key (d : datetime) : list nat :=
  [year d; month d; day d; hour d; minute d; second d].




(** The order of [sorted] on [str]: by code point, the shorter of two strings
    that agree first. *)
Definition str_le (a b : string) : Prop := String.leb a b = true.

Definition str_ge (a b : string) : Prop := String.leb b a = true.

#[export] Instance str_ge_dec (a b : string) : Decision (str_ge a b).
Proof. unfold str_ge. apply _. Defined.

(** Modelled from the spec: the outbound message [ControllerTaskSpec] of
    [schema.py]. *)
Record ControllerTaskSpec : Type := mkTaskSpec {
  ts_step_id : string;
  ts_payload : list (string * string);
  ts_allowed_files : list string;
  ts_verify : string
}.

Module PlanArtifactLog.

(** An entry of [_active_artifacts]: the dictionary [record_plan_start]
    builds, with the step records kept as the dictionaries [record_step]
    appends. *)
Record ActiveRecord : Type := mkActive {
  a_plan_id : string;
  a_plan_json : string;
  a_repo_fingerprint : string;
  a_step_artifacts : list (gmap string json);
  a_start_time : string;
  a_end_time : string;
  a_final_status : string;
  a_metadata : gmap string json
}.

(** The log, and the file system it writes to: [output_dir] is the
    directory [plan_artifacts] that [__init__] made. *)
Record t : Type := mk {
  output_dir : Path;
  files : filesystem;
  active_artifacts : gmap string ActiveRecord
}.

Section Log.

(** [hashlib.sha256(...).hexdigest()], [Plan.to_json()] and the renderings
    [json.dumps(spec.to_dict())] and [json.dumps(outcome.to_dict())] of the
    two messages. *)
Variable sha256_hexdigest : string -> string.
Variable plan_to_json : Plan -> string.
Variable task_spec_dumps : ControllerTaskSpec -> string.
Variable outcome_dumps : ControllerOutcome -> string.

Definition _timestamp (now : datetime) : string := strftime_compact now.

Definition _now_iso (now : datetime) : string := isoformat now.

Definition _hash_diff (diff : string) : string :=
  String.substring 0 16 (sha256_hexdigest diff).

(** [now_id] and [now_start] are the two readings of the clock, in the order
    the code takes them. *)
Definition record_plan_start (self : t) (plan : Plan) (fingerprint : string)
    (metadata : option (gmap string json)) (now_id now_start : datetime)
    : string * t :=
  let artifact_id := plan_id plan +:+ "_" +:+ _timestamp now_id in
  let data :=
    mkActive (plan_id plan) (plan_to_json plan) fingerprint []
      (_now_iso now_start) "" "running" (default ∅ metadata) in
  (artifact_id,
   mk (output_dir self) (files self)
      (<[artifact_id := data]> (active_artifacts self))).

Definition record_step (self : t) (artifact_id : string)
    (spec : ControllerTaskSpec) (outcome : ControllerOutcome) (diff : string)
    (elapsed_ms : Z) (files_touched : option (list string)) (now : datetime)
    : t :=
  match active_artifacts self !! artifact_id with
  | None => self
  | Some data =>
      let step_artifact :=
        StepArtifact.mk (ts_step_id spec) (task_spec_dumps spec)
          (outcome_dumps outcome) (_hash_diff diff) elapsed_ms (_now_iso now)
          (default [] files_touched) in
      let data :=
        mkActive (a_plan_id data) (a_plan_json data) (a_repo_fingerprint data)
          (a_step_artifacts data ++ [StepArtifact.to_dict step_artifact])
          (a_start_time data) (a_end_time data) (a_final_status data)
          (a_metadata data) in
      mk (output_dir self) (files self)
         (<[artifact_id := data]> (active_artifacts self))
  end.

(** What [finalize] does with the record it has popped: the artifact, its
    text and the file. *)
Definition save (self : t) (artifact_id : string) (data : ActiveRecord)
    (status : string) (now : datetime) : result (Path * filesystem) :=
  step_artifacts ← traverse StepArtifact.from_dict (a_step_artifacts data);
  let artifact :=
    PlanArtifact.mk (a_plan_id data) (a_plan_json data)
      (a_repo_fingerprint data) step_artifacts (a_start_time data)
      (_now_iso now) status (a_metadata data) in
  let filepath := joinpath (output_dir self) (artifact_id +:+ ".json") in
  content ← PlanArtifact.to_json artifact;
  written ← write_text (files self) filepath content;
  Ok (filepath, written).

(** The entry is popped before anything else, so it is gone also when the
    rendering of the artifact or the writing of the file raises. *)
Definition finalize (self : t) (artifact_id : string) (status : string)
    (now : datetime) : result (option Path) * t :=
  match active_artifacts self !! artifact_id with
  | None => (Ok None, self)
  | Some data =>
      let active := delete artifact_id (active_artifacts self) in
      match save self artifact_id data status now with
      | Raise e => (Raise e, mk (output_dir self) (files self) active)
      | Ok (filepath, written) =>
          (Ok (Some filepath), mk (output_dir self) written active)
      end
  end.






End Log.

End PlanArtifactLog.

(** ** Runs of the engine *)

(** The three operations a caller drives a run with. *)
Inductive Op : Type :=
  | NextStep
  | UpdateState (outcome : ControllerOutcome)
  | RevisePlan (failure : ControllerOutcome).

(** The plan and the state of a run: the two objects the operations mutate. *)
Definition World : Type := (Plan * PlanState)%type.

(** One call.  An operation that raises has mutated nothing, so the caller is
    left with the plan and the state it had. *)
Definition apply_op (op : Op) (w : World) : World :=
  match op with
  | NextStep =>
      match next_step w.1 w.2 with
      | Ok (_, plan, state) => (plan, state)
      | Raise _ => w
      end
  | UpdateState outcome =>
      match update_state w.1 w.2 outcome with
      | Ok w' => w'
      | Raise _ => w
      end
  | RevisePlan failure =>
      match revise_plan w.1 w.2 failure with
      | Ok w' => w'
      | Raise _ => w
      end
  end.

Definition run (ops : list Op) (w : World) : World :=
  fold_left (fun w op => apply_op op w) ops w.

Definition statuses (plan : Plan) : list StepStatus :=
  status <$> steps plan.

(** Whether the scan of [next_step] stops at a step: it is [ACTIVE], or it is
    [PENDING] and can be activated. *)
Definition dispatchable (plan : Plan) (step : Step) : bool :=
  match status step with
  | PENDING => fst (StepLifecycle.can_activate step plan)
  | ACTIVE => true
  | _ => false
  end.

Definition count_active (plan : Plan) : nat :=
  length (List.filter (fun s => StepStatus_eqb (status s) ACTIVE) (steps plan)).

(** ** Scenarios *)

Definition simple_step (sid : string) (deps : list string) (risk : RiskLevel)
    : Step :=
  mkStep sid sid "" [] "" deps [] "" risk "git checkout ." [] PENDING 0 None None.

Definition success_of (sid : string) : ControllerOutcome :=
  mkOutcome sid true None [].

Definition failure_of (sid : string) : ControllerOutcome :=
  mkOutcome sid false (Some "tests failed") [].

(** Scenario A: the linear plan [a -> b -> c]; [risk_b] is the risk of [b]. *)
Definition linear_plan (risk_b : RiskLevel) : Plan :=
  mkPlan "plan-0123456789ab" "goal"
    [simple_step "a" [] LOW; simple_step "b" ["a"] risk_b;
     simple_step "c" ["b"] LOW]
    1 "2024-01-01T00:00:00+00:00" [] [].

(** [a] succeeds, [b] fails, is revised and retried, fails again and is
    revised again. *)
Definition scenario_A : list Op :=
  [NextStep; UpdateState (success_of "a");
   NextStep; UpdateState (failure_of "b"); RevisePlan (failure_of "b");
   NextStep; UpdateState (failure_of "b"); RevisePlan (failure_of "b")].

(** Scenario C: two steps that do not depend on each other. *)
Definition two_step_plan : Plan :=
  mkPlan "plan-0123456789ab" "goal"
    [simple_step "x" [] LOW; simple_step "y" [] LOW]
    1 "2024-01-01T00:00:00+00:00" [] [].

(** [x] fails once, then [y] fails once, with nothing but the dispatch of [y]
    in between. *)
Definition scenario_C : list Op :=
  [NextStep; UpdateState (failure_of "x");
   NextStep; UpdateState (failure_of "y")].

(** The same with the revision policy applied to the failure of [x] before
    the failure of [y] is reported. *)
Definition scenario_C_revised : list Op :=
  [NextStep; UpdateState (failure_of "x");
   NextStep; RevisePlan (failure_of "x"); UpdateState (failure_of "y")].

(** A plan in which a step that can be activated precedes the active one. *)
Definition plan_pending_before_active : Plan :=
  mkPlan "plan-0123456789ab" "goal"
    [simple_step "x" [] LOW; set_status ACTIVE (simple_step "y" [] LOW)]
    1 "2024-01-01T00:00:00+00:00" [] [].

(** The calls that lead to two active steps: [x] fails, [y] is dispatched,
    the failure of [x] is revised, and [next_step] is called again. *)
Definition double_dispatch : list Op :=
  [NextStep; UpdateState (failure_of "x"); NextStep;
   RevisePlan (failure_of "x"); NextStep].

(** The outcome of the scan in terms of the first step it stops at. *)
Definition scan_result (plan : Plan) (state : PlanState) (i : nat)
    (found : option (nat * Step)) : result (option StepRef * Plan * PlanState) :=
  match found with
  | None => Ok (None, plan, state)
  | Some (k, step) =>
      match status step with
      | ACTIVE => Ok (Some (i + k)%nat, plan, state)
      | _ =>
          let step' := set_status ACTIVE step in
          let plan' := store_step plan (i + k)%nat step' in
          Ok (Some (i + k)%nat, plan',
              set_current_step_idx (get_step_index plan' (step_id step')) state)
      end
  end.

(** ** The step state machine *)

(** The mutations the engine performs on a step:
    [PENDING -> ACTIVE -> DONE | FAILED], [FAILED -> PENDING] after a first
    failure and [FAILED -> SKIPPED] after a second one when the step may be
    skipped. *)
Inductive step_transition (st : Step) : Step -> Prop :=
  | T_activate :
      status st = PENDING ->
      step_transition st (set_status ACTIVE st)
  | T_complete (payload : ControllerOutcome) :
      status st = ACTIVE ->
      step_transition st (set_result_payload (Some payload) (set_status DONE st))
  | T_fail :
      status st = ACTIVE ->
      step_transition st
        (set_status FAILED (set_failure_count (failure_count st + 1) st))
  | T_reset :
      status st = FAILED -> failure_count st = 1 ->
      step_transition st (set_status PENDING st)
  | T_skip (reason : string) :
      status st = FAILED -> failure_count st = 2 ->
      StepLifecycle.can_skip st = true ->
      step_transition st (set_skip_reason (Some reason) (set_status SKIPPED st)).

(** A plan after at most one such mutation: the same plan, or the plan with
    one step object mutated and, possibly, its version incremented. *)
Definition plan_transition (plan plan' : Plan) : Prop :=
  plan' = plan
  \/ exists (k : StepRef) (st st' : Step) (v : Z),
       steps plan !! k = Some st
       /\ step_transition st st'
       /\ plan' = set_version v (store_step plan k st').

(** The worlds the scenarios end in. *)
Definition scenario_A_world_MED : World :=
  Eval vm_compute in run scenario_A (linear_plan MED, fresh_state).

Definition scenario_A_world_HIGH : World :=
  Eval vm_compute in run scenario_A (linear_plan HIGH, fresh_state).

Definition scenario_A_world_LOW : World :=
  Eval vm_compute in run scenario_A (linear_plan LOW, fresh_state).

Definition scenario_C_world : World :=
  Eval vm_compute in run scenario_C (two_step_plan, fresh_state).

(** The linear plan with [a] done and [b] dispatched. *)
Definition b_dispatched_world : World :=
  Eval vm_compute in
    run [NextStep; UpdateState (success_of "a"); NextStep]
        (linear_plan MED, fresh_state).

(** ** Artifact log examples *)

(** Renderings of a plan and of the two messages that keep the id only. *)
Definition example_plan_to_json (plan : Plan) : string := plan_id plan.

Definition example_task_spec_dumps (spec : ControllerTaskSpec) : string :=
  ts_step_id spec.

Definition example_outcome_dumps (outcome : ControllerOutcome) : string :=
  o_step_id outcome.

Definition example_sha256 (diff : string) : string :=
  "9f86d081884c7d659a2feaa0c55ad015a3bf4f1b2b0b822cd15d6c15b0f00a08".

Definition example_spec : ControllerTaskSpec :=
  mkTaskSpec "a" [] [] "".


Definition example_now : datetime := mkDatetime 2026 11 4 9 30 15 0.

(** The log of [PlanArtifactLog("/out")] on a file system that holds nothing
    else: nothing stored and nothing active. *)
Definition empty_log : PlanArtifactLog.t :=
  PlanArtifactLog.mk (mkPath "/" ["out"; "plan_artifacts"])
    (mkFS (Dir {[ "out" := Dir {[ "plan_artifacts" := Dir ∅ ]} ]}) [])
    ∅.






(** ** Bookkeeping of a run *)

(** The number of steps of a plan that are [DONE]. *)
Definition done_count (plan : Plan) : nat :=
  length (List.filter (fun s => StepStatus_eqb (status s) DONE) (steps plan)).

(** What no operation touches in a step. *)
Definition step_frame (s : Step)
    : string * string * string * list string * string * list string
      * list string * string * RiskLevel * string * list (string * string) :=
  (step_id s, title s, intent s, allowed_files s, success_criteria s,
   dependencies s, inputs s, verify s, risk_level s, rollback_hint s,
   controller_task_spec s).

(** [get_plan_summary]: the dictionary it returns; [halt_reason] is the text
    the state holds, empty while the run is not halted. *)
Definition get_plan_summary (plan : Plan) (state : PlanState)
    : gmap string json :=
  <["plan_id" := JStr (plan_id plan)]>
  (<["goal" := JStr (goal plan)]>
  (<["version" := JInt (version plan)]>
  (<["total_steps" := JInt (Z.of_nat (length (steps plan)))]>
  (<["completed" := JInt (Z.of_nat (length (completed_steps state)))]>
  (<["failed" := JInt (Z.of_nat (length (failed_steps state)))]>
  (<["revision_count" := JInt (revision_count state)]>
  (<["halted" := JBool (halted state)]>
  (<["halt_reason" := JStr (halt_reason state)]>
  (<["is_complete" := JBool (is_complete plan state)]> ∅))))))))).

(** The linear plan driven with nothing but successes. *)
Definition scenario_success : list Op :=
  [NextStep; UpdateState (success_of "a");
   NextStep; UpdateState (success_of "b");
   NextStep; UpdateState (success_of "c")].

Definition finished_world : World :=
  Eval vm_compute in run scenario_success (linear_plan MED, fresh_state).

(** ** Plans in dependency order *)

(** Whether the steps [l] can be run in list order after steps with the ids
    [seen]: each one is [PENDING], has an id that no step before it has, and
    depends only on steps before it. *)
Fixpoint ordered_from (seen : list string) (l : list Step) : bool :=
  match l with
  | [] => true
  | st :: l' =>
      StepStatus_eqb (status st) PENDING
      && negb (existsb (String.eqb (step_id st)) seen)
      && forallb (fun dep => existsb (String.eqb dep) seen) (dependencies st)
      && ordered_from (seen ++ [step_id st]) l'
  end.

Definition dependency_ordered (plan : Plan) : bool :=
  ordered_from [] (steps plan).

(** The calls of a caller that asks for the next step and reports a success
    for it, once for each of the steps [l]. *)
Definition drive_successes (l : list Step) : list Op :=
  flat_map (fun st => [NextStep; UpdateState (success_of (step_id st))]) l.

(** A step as such a success report leaves it. *)
Definition completed (st : Step) : Step :=
  set_result_payload (Some (success_of (step_id st))) (set_status DONE st).

(** ** Plan templates ([PlannerV2.propose_plan]) *)

(** Modelled from the spec: the constructor of [Step] with the fields a
    template does not pass at their defaults (no inputs, [PENDING], no
    failure, nothing stored).  The values of [controller_task_spec] are kept
    as text. *)
Definition new_step (step_id title intent : string)
    (allowed_files : list string) (success_criteria : string)
    (dependencies : list string) (verify : string) (risk_level : RiskLevel)
    (rollback_hint : string) (controller_task_spec : list (string * string))
    : Step :=
  mkStep step_id title intent allowed_files success_criteria dependencies []
    verify risk_level rollback_hint controller_task_spec PENDING 0 None None.

(** Modelled from the spec: the constructor of [Plan]; a new plan has
    version 1. *)
Definition new_plan (plan_id goal : string) (steps : list Step)
    (created_at : string) (assumptions constraints : list string) : Plan :=
  mkPlan plan_id goal steps 1 created_at assumptions constraints.

(** [kw in s] on [str]. *)
Fixpoint contains (kw s : string) : bool :=
  String.prefix kw s
  || match s with
     | EmptyString => false
     | String _ s' => contains kw s'
     end.

(** [context.get(key, default)], for a context whose values are text. *)
Definition context_get (context : gmap string string) (key default : string)
    : string :=
  match context !! key with
  | Some v => v
  | None => default
  end.

Module PlannerV2.

Section Planner.

(** [str.lower] and [hashlib.sha256(...).hexdigest()]. *)
Variable lower : string -> string.
Variable sha256_hexdigest : string -> string.

(** [self._seed]. *)
Variable seed : Z.

Definition _generate_plan_id (goal : string) : string :=
  let h := String.substring 0 12 (sha256_hexdigest (goal +:+ ":" +:+ pretty seed)) in
  "plan-" +:+ h.

Definition _detect_goal_type (goal : string) : string :=
  let goal_lower := lower goal in
  if existsb (fun kw => contains kw goal_lower)
       ["fix"; "repair"; "failing test"; "broken"; "bug"] then "repair"
  else if existsb (fun kw => contains kw goal_lower)
            ["add"; "feature"; "implement"; "create"; "new"] then "feature"
  else "generic".

Definition _propose_repair_plan (plan_id goal : string)
    (context : gmap string string) (now : datetime) : Plan :=
  let test_file := context_get context "failing_test_file" "tests/" in
  let test_cmd := context_get context "test_cmd" "pytest -q" in
  let steps :=
    [ new_step "analyze-failure" "Analyze test failure"
        "Understand why the test fails and identify root cause"
        [test_file] "Failure root cause identified" []
        (test_cmd +:+ " 2>&1 | head -50") LOW ""
        [("mode", "read_only")];
      new_step "locate-source" "Locate bug source"
        "Find the specific function/line causing the failure"
        ["*.py"] "Buggy code location identified" ["analyze-failure"]
        "" LOW "" [("mode", "read_only")];
      new_step "propose-fix" "Generate fix patch"
        "Create minimal patch to fix the identified bug"
        ["*.py"] "Patch applies cleanly" ["locate-source"]
        "git apply --check" MED "git checkout ."
        [("mode", "patch"); ("max_lines", "30")];
      new_step "verify-focused" "Verify focused test"
        "Confirm the specific failing test now passes"
        [] "Target test passes" ["propose-fix"]
        (test_cmd +:+ " -x") LOW "" [("mode", "test")];
      new_step "verify-regression" "Check for regressions"
        "Ensure no other tests broke"
        [] "No regressions introduced" ["verify-focused"]
        test_cmd LOW "" [("mode", "test")];
      new_step "verify-full" "Full test suite"
        "Final verification with complete test run"
        [] "All tests pass" ["verify-regression"]
        test_cmd LOW "" [("mode", "test")] ] in
  new_plan plan_id goal steps (isoformat now)
    ["Failure is due to code bug, not flaky test";
     "Fix should be minimal and surgical"]
    ["Max 50 lines changed"; "Max 2 files modified"; "No refactoring"].

Definition _propose_feature_plan (plan_id goal : string)
    (context : gmap string string) (now : datetime) : Plan :=
  let test_cmd := context_get context "test_cmd" "pytest -q" in
  let steps :=
    [ new_step "understand-requirements" "Parse requirements"
        "Extract specific fields and behaviors needed"
        ["docs/*"; "README*"] "Requirements documented" []
        "" LOW "" [("mode", "read_only")];
      new_step "design-approach" "Design solution"
        "Plan the implementation approach"
        ["src/*"; "lib/*"] "Design approach defined"
        ["understand-requirements"] "" LOW "" [("mode", "read_only")];
      new_step "implement-core" "Implement core logic"
        "Write the main implementation code"
        ["src/*"; "lib/*"] "Core implementation complete"
        ["design-approach"] "" MED "git checkout src/ lib/"
        [("mode", "patch")];
      new_step "add-tests" "Add unit tests"
        "Create tests for new functionality"
        ["tests/*"] "Tests exist for new code" ["implement-core"]
        "" LOW "" [("mode", "patch")];
      new_step "verify-new-tests" "Run new tests"
        "Ensure new tests pass"
        [] "New tests pass" ["add-tests"]
        test_cmd LOW "" [("mode", "test")];
      new_step "update-docs" "Update documentation"
        "Document new functionality"
        ["docs/*"; "README*"] "Documentation updated" ["verify-new-tests"]
        "" LOW "" [("mode", "patch")];
      new_step "verify-full" "Full test suite"
        "Final regression check"
        [] "All tests pass" ["update-docs"]
        test_cmd LOW "" [("mode", "test")] ] in
  new_plan plan_id goal steps (isoformat now)
    ["Existing codebase patterns should be followed";
     "New code requires tests"]
    ["Follow existing code style"; "Include documentation"].

Definition _propose_generic_plan (plan_id goal : string)
    (context : gmap string string) (now : datetime) : Plan :=
  let test_cmd := context_get context "test_cmd" "pytest -q" in
  let steps :=
    [ new_step "analyze" "Analyze task"
        "Understand what needs to be done"
        ["*"] "Task understood" [] "" LOW "" [("mode", "read_only")];
      new_step "implement" "Implement changes"
        "Make the required changes"
        ["*"] "Changes implemented" ["analyze"]
        "" MED "git checkout ." [("mode", "patch")];
      new_step "verify" "Verify changes"
        "Confirm changes work correctly"
        [] "All tests pass" ["implement"]
        test_cmd LOW "" [("mode", "test")] ] in
  new_plan plan_id goal steps (isoformat now) [] [].

(** The query of the memory adapter that precedes the choice of the template
    only reads, and its result is not used. *)
Definition propose_plan (goal : string) (context : gmap string string)
    (now : datetime) : Plan :=
  let plan_id := _generate_plan_id goal in
  let goal_type := _detect_goal_type goal in
  if String.eqb goal_type "repair" then
    _propose_repair_plan plan_id goal context now
  else if String.eqb goal_type "feature" then
    _propose_feature_plan plan_id goal context now
  else _propose_generic_plan plan_id goal context now.

End Planner.

End PlannerV2.

(** [str.lower] on ASCII text. *)
Definition ascii_lower (c : Ascii.ascii) : Ascii.ascii :=
  let n := Ascii.nat_of_ascii c in
  if (65 <=? n)%nat && (n <=? 90)%nat then Ascii.ascii_of_nat (n + 32) else c.

Fixpoint lower_ascii (s : string) : string :=
  match s with
  | EmptyString => EmptyString
  | String c s' => String (ascii_lower c) (lower_ascii s')
  end.

(** ** Recording a run *)

(** The arguments of one call of [record_step] and the clock reading it
    takes. *)
Record StepRecord : Type := mkStepRecord {
  r_spec : ControllerTaskSpec;
  r_outcome : ControllerOutcome;
  r_diff : string;
  r_elapsed_ms : Z;
  r_files_touched : option (list string);
  r_now : datetime
}.

Section Recording.

Variable sha256_hexdigest : string -> string.
Variable plan_to_json : Plan -> string.
Variable task_spec_dumps : ControllerTaskSpec -> string.
Variable outcome_dumps : ControllerOutcome -> string.


(** A sequence of calls of [record_step] for one artifact id. *)
Definition record_steps (self : PlanArtifactLog.t) (artifact_id : string)
    (rs : list StepRecord) : PlanArtifactLog.t :=
  fold_left
    (fun log r =>
       PlanArtifactLog.record_step sha256_hexdigest task_spec_dumps
         outcome_dumps log artifact_id (r_spec r) (r_outcome r) (r_diff r)
         (r_elapsed_ms r) (r_files_touched r) (r_now r))
    rs self.


End Recording.

(** Two steps of a run, as reported to the log. *)
Definition example_records : list StepRecord :=
  [mkStepRecord example_spec (success_of "a") "diff --git a/f b/f" 120
     (Some ["f"]) example_now;
   mkStepRecord (mkTaskSpec "b" [] [] "pytest -q") (failure_of "b") "" 45
     None example_now].


(** A clock reading within the second of [example_now]. *)
Definition example_now_later : datetime := mkDatetime 2026 11 4 9 30 15 (500 * 1000).

Definition example_step_artifact : StepArtifact.t :=
  StepArtifact.mk "a" "a" "a" "9f86d081884c7d65" 120
    "2026-11-04T09:30:15+00:00" ["f"].

Definition example_artifact : PlanArtifact.t :=
  PlanArtifact.mk "p" "p" "fingerprint" [example_step_artifact]
    "2026-01-01T00:00:00+00:00" "2026-01-01T00:10:00+00:00" "success" ∅.




(** ** The protocol of a caller *)

(** Whether every [revise_plan] of the calls [ops], made from [w] on, is made
    while no step is [ACTIVE] (the caller revises after an outcome has been
    reported, not while a step is in flight). *)
Fixpoint revises_when_idle (ops : list Op) (w : World) : bool :=
  match ops with
  | [] => true
  | op :: ops' =>
      match op with
      | RevisePlan _ => Nat.eqb (count_active w.1) 0
      | _ => true
      end
      && revises_when_idle ops' (apply_op op w)
  end.

(** No step that [next_step] would stop at stands before an [ACTIVE] step. *)
Definition active_first (plan : Plan) : Prop :=
  forall (k i : nat) (st x : Step),
    steps plan !! k = Some st -> status st = ACTIVE ->
    (i < k)%nat -> steps plan !! i = Some x -> dispatchable plan x = false.

(** The failure count of a step is within the retry ceiling, and a step
    that has reached the ceiling is [FAILED] or [SKIPPED]. *)
Definition within_ceiling (st : Step) : Prop :=
  0 <= failure_count st <= StepLifecycle.RETRY_CEILING
  /\ (failure_count st = StepLifecycle.RETRY_CEILING ->
      status st = FAILED \/ status st = SKIPPED).

(** Every step that has been dispatched (it is not [PENDING]) has all its
    dependencies [DONE]. *)
Definition dependencies_done (plan : Plan) : Prop :=
  forall (i : nat) (st : Step),
    steps plan !! i = Some st -> status st <> PENDING ->
    Forall (fun dep => StepLifecycle.dependency_done plan dep = true)
           (dependencies st).

(** * Properties *)

(** ** Basic facts *)

Lemma StepStatus_eqb_eq (a b : StepStatus) : StepStatus_eqb a b = true <-> a = b.
Proof. destruct a, b; simpl; split; congruence. Qed.

Lemma StepStatus_eqb_refl (a : StepStatus) : StepStatus_eqb a a = true.
Proof. by destruct a. Qed.

Lemma RiskLevel_eqb_eq (a b : RiskLevel) : RiskLevel_eqb a b = true <-> a = b.
Proof. destruct a, b; simpl; split; congruence. Qed.

Lemma bind_Ok {A B : Type} (m : result A) (k : A -> result B) (b : B) :
  m ≫= k = Ok b -> exists a, m = Ok a /\ k a = Ok b.
Proof. destruct m as [a|e]; simpl; [eauto | discriminate]. Qed.

(** Replacing a step by one that the search treats alike does not move what
    the search finds. *)
Lemma list_find_insert_alike {A : Type} (P : A -> Prop)
    `{forall x, Decision (P x)} (l : list A) (k : nat) (x x' : A) :
  l !! k = Some x -> (P x <-> P x') ->
  list_find P (<[k := x']> l)
  = (fun '(i, y) => (i, if decide (i = k) then x' else y)) <$> list_find P l.
Proof.
  revert k. induction l as [|a l IH]; intros [|k] Hk HP; try discriminate.
  - simplify_eq/=. destruct (decide (P x')), (decide (P x)); try tauto; simpl.
    destruct (list_find P l) as [[i y]|]; simpl; [|done].
    by destruct (decide (S i = 0%nat)).
  - simpl in *. destruct (decide (P a)); simpl; [done|].
    rewrite (IH k Hk HP).
    destruct (list_find P l) as [[i y]|]; simpl; [|done].
    destruct (decide (i = k)), (decide (S i = S k)); try done; congruence.
Qed.

Lemma get_step_store (plan : Plan) (k : StepRef) (st st' : Step) (sid : string) :
  steps plan !! k = Some st -> step_id st' = step_id st ->
  get_step (store_step plan k st') sid
  = (fun '(i, y) => (i, if decide (i = k) then st' else y)) <$> get_step plan sid.
Proof.
  intros Hk Hid. unfold get_step, store_step. simpl.
  apply list_find_insert_alike with (x := st); [done|]. by rewrite Hid.
Qed.

Lemma get_step_lookup (plan : Plan) (sid : string) (r : StepRef) (st : Step) :
  get_step plan sid = Some (r, st) -> steps plan !! r = Some st.
Proof. unfold get_step. intros H. by apply list_find_Some in H as [? _]. Qed.

Lemma get_step_id (plan : Plan) (sid : string) (r : StepRef) (st : Step) :
  get_step plan sid = Some (r, st) -> step_id st = sid.
Proof.
  unfold get_step. intros H. apply list_find_Some in H as (_ & H & _).
  by apply String.eqb_eq.
Qed.

(** A step that is not [DONE] before and after its mutation satisfies no
    dependency, before or after. *)
Lemma dependency_done_store (plan : Plan) (k : StepRef) (st st' : Step)
    (dep : string) :
  steps plan !! k = Some st -> step_id st' = step_id st ->
  status st <> DONE -> status st' <> DONE ->
  StepLifecycle.dependency_done (store_step plan k st') dep
  = StepLifecycle.dependency_done plan dep.
Proof.
  intros Hk Hid Hst Hst'. unfold StepLifecycle.dependency_done.
  rewrite (get_step_store plan k st st' dep Hk Hid).
  destruct (get_step plan dep) as [[i y]|] eqn:Hg; simpl; [|done].
  destruct (decide (i = k)) as [->|]; [|done].
  apply get_step_lookup in Hg. rewrite Hk in Hg. injection Hg as <-.
  destruct (StepStatus_eqb (status st') DONE) eqn:E1;
    destruct (StepStatus_eqb (status st) DONE) eqn:E2; try done;
    rewrite StepStatus_eqb_eq in *; congruence.
Qed.

Lemma can_activate_store (plan : Plan) (k : StepRef) (st st' x : Step) :
  steps plan !! k = Some st -> step_id st' = step_id st ->
  status st <> DONE -> status st' <> DONE ->
  StepLifecycle.can_activate x (store_step plan k st')
  = StepLifecycle.can_activate x plan.
Proof.
  intros Hk Hid Hst Hst'. unfold StepLifecycle.can_activate.
  destruct (StepStatus_eqb (status x) PENDING); [|done].
  assert (List.find (fun dep => negb (StepLifecycle.dependency_done (store_step plan k st') dep))
            (dependencies x)
          = List.find (fun dep => negb (StepLifecycle.dependency_done plan dep))
              (dependencies x)) as ->; [|done].
  induction (dependencies x) as [|d ds IH]; simpl; [done|].
  by rewrite (dependency_done_store plan k st st' d Hk Hid Hst Hst'), IH.
Qed.

Lemma dispatchable_store (plan : Plan) (k : StepRef) (st st' x : Step) :
  steps plan !! k = Some st -> step_id st' = step_id st ->
  status st <> DONE -> status st' <> DONE ->
  dispatchable (store_step plan k st') x = dispatchable plan x.
Proof.
  intros. unfold dispatchable.
  by rewrite (can_activate_store plan k st st' x).
Qed.

(** [can_activate] holds exactly when the step is [PENDING] and each of its
    dependencies is satisfied. *)
Lemma can_activate_true (step : Step) (plan : Plan) :
  fst (StepLifecycle.can_activate step plan) = true
  <-> status step = PENDING
      /\ Forall (fun dep => StepLifecycle.dependency_done plan dep = true)
           (dependencies step).
Proof.
  unfold StepLifecycle.can_activate.
  destruct (StepStatus_eqb (status step) PENDING) eqn:E.
  - apply StepStatus_eqb_eq in E.
    induction (dependencies step) as [|d ds IH]; simpl.
    + split; [by split|done].
    + destruct (StepLifecycle.dependency_done plan d) eqn:Ed; simpl.
      * rewrite IH. split; [intros [? ?]; split; [done|by constructor]|].
        intros [? HF]. by inversion HF.
      * split; [done|]. intros [_ HF]. inversion HF; congruence.
  - simpl. split; [done|]. intros [Hs _]. rewrite Hs in E. done.
Qed.

(** ** The scan of [next_step] *)

Lemma next_step_scan_find (plan : Plan) (state : PlanState) (rest : list Step)
    (i : nat) :
  next_step_scan plan state i rest
  = scan_result plan state i
      (list_find (fun st => dispatchable plan st = true) rest).
Proof.
  revert i. induction rest as [|st rest IH]; intros i; [done|].
  simpl. rewrite IH.
  destruct (decide (dispatchable plan st = true)) as [Hd|Hd];
    unfold dispatchable in Hd; simpl;
    destruct (status st) eqn:Est; try done; simpl.
  - rewrite Hd. unfold StepLifecycle.activate. rewrite Est. simpl.
    by rewrite Nat.add_0_r.
  - by rewrite Nat.add_0_r.
  - destruct (fst (StepLifecycle.can_activate st plan)); [done|].
    destruct (list_find _ rest) as [[k y]|]; simpl; [|done].
    by rewrite Nat.add_succ_r.
  - destruct (list_find _ rest) as [[k y]|]; simpl; [|done].
    by rewrite Nat.add_succ_r.
  - destruct (list_find _ rest) as [[k y]|]; simpl; [|done].
    by rewrite Nat.add_succ_r.
  - destruct (list_find _ rest) as [[k y]|]; simpl; [|done].
    by rewrite Nat.add_succ_r.
Qed.

Lemma next_step_find (plan : Plan) (state : PlanState) :
  next_step plan state
  = if halted state then Ok (None, plan, state)
    else scan_result plan state 0
           (list_find (fun st => dispatchable plan st = true) (steps plan)).
Proof. unfold next_step. by rewrite next_step_scan_find. Qed.

(** ** C1: re-dispatch of the active step *)

Lemma dispatchable_active (plan : Plan) (st : Step) :
  status st = ACTIVE -> dispatchable plan st = true.
Proof. unfold dispatchable. by intros ->. Qed.

(** What [next_step] returns when the first step the scan stops at is
    [ACTIVE]: that step, with the plan and the state untouched. *)
Lemma next_step_first_active (plan : Plan) (state : PlanState) (i : StepRef)
    (st : Step) :
  halted state = false ->
  steps plan !! i = Some st ->
  status st = ACTIVE ->
  (forall j sj, (j < i)%nat -> steps plan !! j = Some sj ->
                dispatchable plan sj = false) ->
  next_step plan state = Ok (Some i, plan, state).
Proof.
  intros Hh Hi Hst Hbefore. rewrite next_step_find, Hh.
  assert (list_find (fun st => dispatchable plan st = true) (steps plan)
          = Some (i, st)) as ->.
  { apply list_find_Some. split_and!; [done|by apply dispatchable_active|].
    intros j y Hj Hlt. rewrite (Hbefore j y Hlt Hj). done. }
  simpl. by rewrite Hst.
Qed.

(** Calling [next_step] again right away returns the same step and changes
    nothing more. *)
Lemma next_step_twice (plan : Plan) (state : PlanState) :
  exists r plan' state',
    next_step plan state = Ok (r, plan', state')
    /\ next_step plan' state' = Ok (r, plan', state').
Proof.
  rewrite next_step_find. destruct (halted state) eqn:Hh.
  { exists None, plan, state. split; [done|]. unfold next_step. by rewrite Hh. }
  destruct (list_find _ (steps plan)) as [[k st]|] eqn:Hf; simpl.
  2:{ exists None, plan, state. split; [done|].
      by rewrite next_step_find, Hh, Hf. }
  pose proof Hf as Hf'. apply list_find_Some in Hf' as (Hk & Hd & Hbefore).
  destruct (status st) eqn:Hst;
    try (unfold dispatchable in Hd; rewrite Hst in Hd; discriminate).
  - (* the step was PENDING and has just been activated *)
    set (st' := set_status ACTIVE st).
    set (plan' := store_step plan k st').
    set (state' := set_current_step_idx (get_step_index plan' (step_id st')) state).
    exists (Some k), plan', state'. split; [done|].
    rewrite next_step_find. change (halted state') with (halted state). rewrite Hh.
    assert (list_find (fun x => dispatchable plan' x = true) (steps plan')
            = Some (k, st')) as ->.
    { apply list_find_Some. split_and!.
      - simpl. apply list_lookup_insert_eq. by eapply lookup_lt_Some.
      - done.
      - intros j y Hj Hlt. simpl in Hj.
        rewrite list_lookup_insert_ne in Hj by lia.
        unfold plan'. rewrite (dispatchable_store plan k st st' y); try done.
        + by apply (Hbefore j y).
        + by rewrite Hst. }
    done.
  - (* the step was already ACTIVE *)
    exists (Some k), plan, state. split; [done|].
    rewrite next_step_find, Hh, Hf. simpl. by rewrite Hst.
Qed.

(** What [next_step] does when the first step the scan stops at is
    [PENDING]: it activates it and returns it. *)
Lemma next_step_first_pending (plan : Plan) (state : PlanState) (i : StepRef)
    (st : Step) :
  halted state = false ->
  steps plan !! i = Some st ->
  status st = PENDING ->
  fst (StepLifecycle.can_activate st plan) = true ->
  (forall j sj, (j < i)%nat -> steps plan !! j = Some sj ->
                dispatchable plan sj = false) ->
  next_step plan state
  = Ok (Some i, store_step plan i (set_status ACTIVE st),
        set_current_step_idx
          (get_step_index (store_step plan i (set_status ACTIVE st))
             (step_id st)) state).
Proof.
  intros Hh Hi Hst Hcan Hbefore. rewrite next_step_find, Hh.
  assert (list_find (fun st => dispatchable plan st = true) (steps plan)
          = Some (i, st)) as ->.
  { apply list_find_Some. split_and!; [done| |].
    - unfold dispatchable. by rewrite Hst.
    - intros j y Hj Hlt. rewrite (Hbefore j y Hlt Hj). done. }
  simpl. by rewrite Hst.
Qed.

(** What [next_step] does when the scan stops nowhere. *)
Lemma next_step_nothing (plan : Plan) (state : PlanState) :
  halted state = false ->
  (forall j sj, steps plan !! j = Some sj -> dispatchable plan sj = false) ->
  next_step plan state = Ok (None, plan, state).
Proof.
  intros Hh Hnone. rewrite next_step_find, Hh.
  assert (list_find (fun st => dispatchable plan st = true) (steps plan)
          = None) as ->; [|done].
  apply list_find_None, Forall_forall. intros st Hst.
  apply list_elem_of_lookup_1 in Hst as [j Hj]. by rewrite (Hnone j st Hj).
Qed.

Lemma dispatchable_iff (plan : Plan) (st : Step) :
  dispatchable plan st = true
  <-> status st = ACTIVE
      \/ (status st = PENDING
          /\ fst (StepLifecycle.can_activate st plan) = true).
Proof.
  unfold dispatchable. destruct (status st); split; intros H;
    try discriminate H; auto;
    destruct H as [H|[H H']]; try discriminate H; done.
Qed.

(** C1 (amended): on a state that is not halted, [next_step] scans the steps
    in list order and stops at the first one that is [ACTIVE], or [PENDING]
    and activatable.  When that step is [ACTIVE] it is returned and neither
    the plan nor the state is changed; when it is [PENDING] it is activated
    and returned, whether or not an [ACTIVE] step stands after it; when the
    scan stops nowhere [None] is returned and nothing changes.  In every
    case a second call in a row returns the same step as the first and
    changes nothing more. *)
Theorem next_step_redispatch (plan : Plan) (state : PlanState) :
  (forall (i : StepRef) (st : Step),
      halted state = false ->
      steps plan !! i = Some st ->
      status st = ACTIVE ->
      (forall j sj, (j < i)%nat -> steps plan !! j = Some sj ->
                    dispatchable plan sj = false) ->
      next_step plan state = Ok (Some i, plan, state))
  /\ (exists r plan' state',
         next_step plan state = Ok (r, plan', state')
         /\ next_step plan' state' = Ok (r, plan', state'))
  /\ (forall (i : StepRef) (st : Step),
         halted state = false ->
         steps plan !! i = Some st ->
         status st = PENDING ->
         fst (StepLifecycle.can_activate st plan) = true ->
         (forall j sj, (j < i)%nat -> steps plan !! j = Some sj ->
                       dispatchable plan sj = false) ->
         next_step plan state
         = Ok (Some i, store_step plan i (set_status ACTIVE st),
               set_current_step_idx
                 (get_step_index (store_step plan i (set_status ACTIVE st))
                    (step_id st)) state)
         /\ steps (store_step plan i (set_status ACTIVE st)) !! i
            = Some (set_status ACTIVE st))
  /\ (halted state = false ->
      (forall j sj, steps plan !! j = Some sj -> dispatchable plan sj = false) ->
      next_step plan state = Ok (None, plan, state))
  /\ (forall st : Step,
         dispatchable plan st = true
         <-> status st = ACTIVE
             \/ (status st = PENDING
                 /\ fst (StepLifecycle.can_activate st plan) = true)).
Proof.
  split_and!.
  - intros i st. apply next_step_first_active.
  - apply next_step_twice.
  - intros i st Hh Hi Hst Hcan Hbefore.
    split; [by apply next_step_first_pending|].
    apply list_lookup_insert_eq. by eapply lookup_lt_Some.
  - apply next_step_nothing.
  - intros st. apply dispatchable_iff.
Qed.

(** With [a] done and [b] dispatched, [next_step] hands out [b] again. *)
Lemma next_step_redispatch_witness :
  next_step b_dispatched_world.1 b_dispatched_world.2
  = Ok (Some 1%nat, b_dispatched_world.1, b_dispatched_world.2).
Proof.
  eapply (proj1 (next_step_redispatch _ _)); [reflexivity..|].
  intros [|j] sj Hj Hsj; [|lia].
  injection Hsj as <-. reflexivity.
Defined.

(** C1 (as stated) fails: with a [PENDING] step that can be activated ahead
    of the [ACTIVE] one, [next_step] activates and returns the former, leaving
    two steps [ACTIVE]; the calls of [double_dispatch] reach such a plan from
    a fresh run. *)
Lemma next_step_second_active :
  statuses plan_pending_before_active = [PENDING; ACTIVE]
  /\ halted fresh_state = false
  /\ (exists plan' state',
         next_step plan_pending_before_active fresh_state
         = Ok (Some 0%nat, plan', state')
         /\ statuses plan' = [ACTIVE; ACTIVE])
  /\ statuses (run double_dispatch (two_step_plan, fresh_state)).1
     = [ACTIVE; ACTIVE]
  /\ count_active (run double_dispatch (two_step_plan, fresh_state)).1 = 2%nat.
Proof.
  split_and!; try reflexivity.
  eexists _, _. split; reflexivity.
Qed.

(** ** What one operation does to the plan and to the halt flag *)

Lemma set_version_same (plan : Plan) : set_version (version plan) plan = plan.
Proof. by destruct plan. Qed.

Lemma next_step_transition (plan : Plan) (state : PlanState) :
  exists r plan' state',
    next_step plan state = Ok (r, plan', state')
    /\ halted state' = halted state
    /\ consecutive_failures state' = consecutive_failures state
    /\ plan_transition plan plan'
    /\ (halted state = true -> r = None /\ plan' = plan /\ state' = state).
Proof.
  rewrite next_step_find. destruct (halted state) eqn:Hh.
  { exists None, plan, state. split_and!; try done. by left. }
  destruct (list_find _ (steps plan)) as [[k st]|] eqn:Hf; simpl.
  2:{ exists None, plan, state. split_and!; try done. by left. }
  apply list_find_Some in Hf as (Hk & Hd & _).
  destruct (status st) eqn:Hst;
    try (unfold dispatchable in Hd; rewrite Hst in Hd; discriminate).
  - eexists _, _, _. split_and!; try done.
    right. exists k, st, (set_status ACTIVE st), (version plan).
    split_and!; [done|by constructor|done].
  - exists (Some k), plan, state. split_and!; try done. by left.
Qed.

Lemma update_state_transition (plan : Plan) (state : PlanState)
    (outcome : ControllerOutcome) (plan' : Plan) (state' : PlanState) :
  update_state plan state outcome = Ok (plan', state') ->
  (halted state = true -> halted state' = true)
  /\ plan_transition plan plan'.
Proof.
  unfold update_state.
  destruct (get_step plan (o_step_id outcome)) as [[r st]|] eqn:Hg.
  2:{ intros [= <- <-]. split; [done|by left]. }
  apply get_step_lookup in Hg.
  destruct (o_success outcome);
    unfold StepLifecycle.complete, StepLifecycle.fail;
    destruct (StepStatus_eqb (status st) ACTIVE) eqn:Hact; simpl;
    try discriminate; apply StepStatus_eqb_eq in Hact.
  - intros [= <- <-]. split; [done|].
    right. eexists r, st, _, (version plan).
    split_and!; [done|by apply T_complete|done].
  - intros [= <- <-]. split.
    + destruct (negb _ || _); simpl; done.
    + right. eexists r, st, _, (version plan).
      split_and!; [done|by apply T_fail|done].
Qed.

Lemma revise_plan_transition (plan : Plan) (state : PlanState)
    (failure : ControllerOutcome) (plan' : Plan) (state' : PlanState) :
  revise_plan plan state failure = Ok (plan', state') ->
  halted state' = halted state
  /\ plan_transition plan plan'.
Proof.
  unfold revise_plan.
  destruct (get_step plan (o_step_id failure)) as [[r st]|] eqn:Hg.
  2:{ intros [= <- <-]. split; [done|by left]. }
  apply get_step_lookup in Hg.
  destruct (failure_count st =? 1) eqn:H1.
  { unfold StepLifecycle.reset_for_retry.
    destruct (StepStatus_eqb (status st) FAILED) eqn:Hf; simpl; [|discriminate].
    destruct (failure_count st <? StepLifecycle.RETRY_CEILING); simpl;
      [|discriminate].
    apply StepStatus_eqb_eq in Hf. apply Z.eqb_eq in H1.
    intros [= <- <-]. split; [done|].
    right. eexists r, st, _, _. split_and!; [done|by apply T_reset|done]. }
  destruct ((failure_count st =? 2) && StepLifecycle.can_skip st) eqn:H2.
  { apply andb_true_iff in H2 as [H2 Hskip]. apply Z.eqb_eq in H2.
    unfold StepLifecycle.skip.
    destruct (StepStatus_eqb (status st) FAILED) eqn:Hf; simpl; [|discriminate].
    apply StepStatus_eqb_eq in Hf.
    intros [= <- <-]. split; [done|].
    right. eexists r, st, _, _. split_and!; [done|by apply T_skip|done]. }
  intros [= <- <-]. split; [done|by left].
Qed.

(** One call of any operation mutates at most one step, along the step state
    machine, and never clears the halt flag. *)
Lemma apply_op_transition (op : Op) (w : World) :
  plan_transition w.1 (apply_op op w).1
  /\ (halted w.2 = true -> halted (apply_op op w).2 = true).
Proof.
  destruct w as [plan state]. destruct op as [|o|f]; simpl.
  - destruct (next_step_transition plan state)
      as (r & plan' & state' & -> & Hh & _ & Ht & _).
    simpl. split; [done|]. by rewrite Hh.
  - destruct (update_state plan state o) as [[plan' state']|e] eqn:Hu; simpl.
    + by apply update_state_transition in Hu as [? ?].
    + split; [by left|done].
  - destruct (revise_plan plan state f) as [[plan' state']|e] eqn:Hr; simpl.
    + apply revise_plan_transition in Hr as [Hh ?]. split; [done|].
      by rewrite Hh.
    + split; [by left|done].
Qed.

Lemma run_cons (op : Op) (ops : list Op) (w : World) :
  run (op :: ops) w = run ops (apply_op op w).
Proof. done. Qed.

Lemma run_app (ops1 ops2 : list Op) (w : World) :
  run (ops1 ++ ops2) w = run ops2 (run ops1 w).
Proof. unfold run. apply fold_left_app. Qed.

(** ** C4: halt monotonicity *)

Lemma next_step_halted (plan : Plan) (state : PlanState) :
  halted state = true -> next_step plan state = Ok (None, plan, state).
Proof. unfold next_step. by intros ->. Qed.

Lemma run_halted (ops : list Op) (w : World) :
  halted w.2 = true -> halted (run ops w).2 = true.
Proof.
  revert w. induction ops as [|op ops IH]; intros w Hh; [done|].
  rewrite run_cons. apply IH. by apply apply_op_transition.
Qed.

(** C4: once [state.halted] is true, [next_step] returns [None] (and changes
    nothing), and it stays true through every sequence of calls of
    [next_step], [update_state] and [revise_plan], after each of which
    [next_step] returns [None] again. *)
Theorem halt_monotonicity (ops : list Op) (plan : Plan) (state : PlanState) :
  halted state = true ->
  next_step plan state = Ok (None, plan, state)
  /\ halted (run ops (plan, state)).2 = true
  /\ next_step (run ops (plan, state)).1 (run ops (plan, state)).2
     = Ok (None, (run ops (plan, state)).1, (run ops (plan, state)).2).
Proof.
  intros Hh. split; [by apply next_step_halted|].
  assert (halted (run ops (plan, state)).2 = true) as Hrun
    by by apply run_halted.
  split; [done|]. by apply next_step_halted.
Qed.

(** The run of Scenario C is halted; a revision of [y], the report of a
    success and further dispatch attempts leave it halted. *)
Lemma halt_monotonicity_witness :
  next_step scenario_C_world.1 scenario_C_world.2
  = Ok (None, scenario_C_world.1, scenario_C_world.2)
  /\ halted (run [RevisePlan (failure_of "y"); NextStep;
                  UpdateState (success_of "y"); NextStep]
                 (scenario_C_world.1, scenario_C_world.2)).2 = true
  /\ next_step
       (run [RevisePlan (failure_of "y"); NextStep;
             UpdateState (success_of "y"); NextStep]
            (scenario_C_world.1, scenario_C_world.2)).1
       (run [RevisePlan (failure_of "y"); NextStep;
             UpdateState (success_of "y"); NextStep]
            (scenario_C_world.1, scenario_C_world.2)).2
     = Ok (None,
           (run [RevisePlan (failure_of "y"); NextStep;
                 UpdateState (success_of "y"); NextStep]
                (scenario_C_world.1, scenario_C_world.2)).1,
           (run [RevisePlan (failure_of "y"); NextStep;
                 UpdateState (success_of "y"); NextStep]
                (scenario_C_world.1, scenario_C_world.2)).2).
Proof. apply halt_monotonicity. reflexivity. Defined.

(** ** C6: skip safety *)

Lemma can_skip_iff (step : Step) :
  StepLifecycle.can_skip step = true <-> risk_level step <> HIGH.
Proof.
  unfold StepLifecycle.can_skip. rewrite negb_true_iff.
  destruct (RiskLevel_eqb (risk_level step) HIGH) eqn:E.
  - apply RiskLevel_eqb_eq in E. split; [done|congruence].
  - split; [|done]. intros _ Hr. rewrite Hr in E. done.
Qed.

Lemma step_transition_high (st st' : Step) :
  step_transition st st' ->
  risk_level st' = risk_level st
  /\ (risk_level st = HIGH -> status st <> SKIPPED -> status st' <> SKIPPED).
Proof.
  intros [H|p H|H|H H1|reason H H2 Hskip]; simpl; split; try done.
  intros Hhigh _. by apply can_skip_iff in Hskip.
Qed.

Lemma plan_transition_lookup (plan plan' : Plan) (i : StepRef) (st : Step) :
  plan_transition plan plan' ->
  steps plan !! i = Some st ->
  steps plan' !! i = Some st
  \/ exists st', step_transition st st' /\ steps plan' !! i = Some st'.
Proof.
  intros [->|(k & x & x' & v & Hk & Ht & ->)] Hi; [by left|]. simpl.
  destruct (decide (k = i)) as [->|Hne].
  - right. rewrite Hk in Hi. injection Hi as ->. exists x'. split; [done|].
    apply list_lookup_insert_eq. by eapply lookup_lt_Some.
  - left. by rewrite list_lookup_insert_ne.
Qed.

Lemma apply_op_high (op : Op) (w : World) (i : StepRef) (st : Step) :
  steps w.1 !! i = Some st -> risk_level st = HIGH -> status st <> SKIPPED ->
  exists st', steps (apply_op op w).1 !! i = Some st'
              /\ risk_level st' = HIGH /\ status st' <> SKIPPED.
Proof.
  intros Hi Hhigh Hst.
  destruct (apply_op_transition op w) as [Ht _].
  destruct (plan_transition_lookup _ _ i st Ht Hi) as [H|(st' & Hs & H)].
  - by exists st.
  - exists st'. apply step_transition_high in Hs as [Hr Hs].
    split_and!; [done|congruence|by apply Hs].
Qed.

(** C6: [can_skip] holds exactly of the steps whose risk level is not [HIGH],
    and through every sequence of calls of [next_step], [update_state] and
    [revise_plan] a [HIGH]-risk step that is not [SKIPPED] stays a [HIGH]-risk
    step that is not [SKIPPED], whatever its failure count. *)
Theorem skip_safety :
  (forall step : Step,
      StepLifecycle.can_skip step = true <-> risk_level step <> HIGH)
  /\ (forall (ops : list Op) (plan : Plan) (state : PlanState) (i : StepRef)
             (st : Step),
         steps plan !! i = Some st ->
         risk_level st = HIGH ->
         status st <> SKIPPED ->
         exists st', steps (run ops (plan, state)).1 !! i = Some st'
                     /\ risk_level st' = HIGH /\ status st' <> SKIPPED).
Proof.
  split; [apply can_skip_iff|].
  intros ops. induction ops as [|op ops IH]; intros plan state i st Hi Hh Hs.
  - by exists st.
  - rewrite run_cons.
    destruct (apply_op_high op (plan, state) i st Hi Hh Hs)
      as (st1 & Hi1 & Hh1 & Hs1).
    destruct (apply_op op (plan, state)) as [plan1 state1] eqn:E.
    by apply (IH plan1 state1 i st1).
Qed.

(** Scenario A with a [HIGH]-risk [b]: after its two failures and the two
    revisions, [b] is not [SKIPPED]. *)
Lemma skip_safety_witness :
  exists st', steps (run scenario_A (linear_plan HIGH, fresh_state)).1 !! 1%nat
              = Some st'
              /\ risk_level st' = HIGH /\ status st' <> SKIPPED.
Proof.
  apply (proj2 skip_safety scenario_A (linear_plan HIGH) fresh_state 1%nat
           (simple_step "b" ["a"] HIGH)); [reflexivity|reflexivity|discriminate].
Defined.

(** ** C5: retry ceiling *)

Lemma revise_plan_unknown (plan : Plan) (state : PlanState)
    (failure : ControllerOutcome) :
  get_step plan (o_step_id failure) = None ->
  revise_plan plan state failure = Ok (plan, state).
Proof. unfold revise_plan. by intros ->. Qed.

Lemma revise_plan_no_revision (plan : Plan) (state : PlanState)
    (failure : ControllerOutcome) (r : StepRef) (st : Step) :
  get_step plan (o_step_id failure) = Some (r, st) ->
  failure_count st <> 1 ->
  failure_count st <> 2 \/ StepLifecycle.can_skip st = false ->
  revise_plan plan state failure = Ok (plan, state).
Proof.
  intros Hg H1 H2. unfold revise_plan. rewrite Hg.
  destruct (failure_count st =? 1) eqn:E1; [apply Z.eqb_eq in E1; done|].
  destruct ((failure_count st =? 2) && StepLifecycle.can_skip st) eqn:E2;
    [|done].
  apply andb_true_iff in E2 as [E2 E3]. apply Z.eqb_eq in E2.
  destruct H2; congruence.
Qed.

Lemma revise_plan_reset_only_once (plan : Plan) (state : PlanState)
    (failure : ControllerOutcome) (plan' : Plan) (state' : PlanState)
    (i : StepRef) (x x' : Step) :
  revise_plan plan state failure = Ok (plan', state') ->
  steps plan !! i = Some x -> steps plan' !! i = Some x' ->
  status x = FAILED -> status x' = PENDING ->
  failure_count x = 1.
Proof.
  intros Hr Hi Hi' Hx Hx'.
  apply revise_plan_transition in Hr as [_ Ht].
  destruct (plan_transition_lookup _ _ i x Ht Hi) as [H|(st' & Hs & H)];
    rewrite H in Hi'; injection Hi' as <-; [congruence|].
  destruct Hs; simpl in *; congruence.
Qed.

(** C5: [revise_plan] returns the plan as it is, and changes neither a step
    nor the state nor the version, when the failure names no step of the plan
    and when the failure count of the step it names is neither 1 nor 2, or is
    2 while the step cannot be skipped.  A [FAILED] step goes back to
    [PENDING] in [revise_plan] only at failure count 1: a step that has
    failed twice is not reset again. *)
Theorem retry_ceiling (plan : Plan) (state : PlanState)
    (failure : ControllerOutcome) :
  (get_step plan (o_step_id failure) = None ->
   revise_plan plan state failure = Ok (plan, state))
  /\ (forall (r : StepRef) (st : Step),
         get_step plan (o_step_id failure) = Some (r, st) ->
         failure_count st <> 1 ->
         failure_count st <> 2 \/ StepLifecycle.can_skip st = false ->
         revise_plan plan state failure = Ok (plan, state))
  /\ (forall (plan' : Plan) (state' : PlanState) (i : StepRef) (x x' : Step),
         revise_plan plan state failure = Ok (plan', state') ->
         steps plan !! i = Some x -> steps plan' !! i = Some x' ->
         status x = FAILED -> status x' = PENDING ->
         failure_count x = 1).
Proof.
  split_and!.
  - apply revise_plan_unknown.
  - apply revise_plan_no_revision.
  - apply revise_plan_reset_only_once.
Qed.

(** Scenario A with a [HIGH]-risk [b]: a further revision of the twice-failed
    [b] changes nothing. *)
Lemma retry_ceiling_witness :
  revise_plan scenario_A_world_HIGH.1 scenario_A_world_HIGH.2 (failure_of "b")
  = Ok (scenario_A_world_HIGH.1, scenario_A_world_HIGH.2).
Proof.
  eapply (proj1 (proj2 (retry_ceiling _ _ _))).
  - reflexivity.
  - discriminate.
  - right. reflexivity.
Defined.

(** ** C10: revision of a halted run *)

(** C10: [revise_plan] does not consult [state.halted].  On a halted state,
    for a failure whose step is [FAILED] with failure count 1, it resets the
    step to [PENDING], increments [revision_count] and [plan.version] and
    sets [consecutive_failures] to 0; the state stays halted, and [next_step]
    returns [None] for it then and after any further calls. *)
Theorem revise_plan_ignores_halt (plan : Plan) (state : PlanState)
    (failure : ControllerOutcome) (r : StepRef) (st : Step) :
  halted state = true ->
  get_step plan (o_step_id failure) = Some (r, st) ->
  status st = FAILED ->
  failure_count st = 1 ->
  exists plan' state',
    revise_plan plan state failure = Ok (plan', state')
    /\ steps plan' = <[r := set_status PENDING st]> (steps plan)
    /\ steps plan' !! r = Some (set_status PENDING st)
    /\ version plan' = version plan + 1
    /\ revision_count state' = revision_count state + 1
    /\ consecutive_failures state' = 0
    /\ halted state' = true
    /\ next_step plan' state' = Ok (None, plan', state')
    /\ (forall ops : list Op,
           next_step (run ops (plan', state')).1 (run ops (plan', state')).2
           = Ok (None, (run ops (plan', state')).1, (run ops (plan', state')).2)).
Proof.
  intros Hh Hg Hst Hfc. unfold revise_plan. rewrite Hg, Hfc. simpl.
  unfold StepLifecycle.reset_for_retry. rewrite Hst, Hfc. simpl.
  eexists _, _. split; [reflexivity|]. simpl. split_and!; try done.
  - apply list_lookup_insert_eq. apply get_step_lookup in Hg.
    by eapply lookup_lt_Some.
  - by apply next_step_halted.
  - intros ops. apply next_step_halted. by apply run_halted.
Qed.

(** The halted run of Scenario C, in which [y] has failed once. *)
Lemma revise_plan_ignores_halt_witness :
  exists plan' state',
    revise_plan scenario_C_world.1 scenario_C_world.2 (failure_of "y")
    = Ok (plan', state')
    /\ steps plan'
       = <[1%nat := set_status PENDING
                      (set_status FAILED
                         (set_failure_count 1 (simple_step "y" [] LOW)))]>
           (steps scenario_C_world.1)
    /\ steps plan' !! 1%nat
       = Some (set_status PENDING
                 (set_status FAILED
                    (set_failure_count 1 (simple_step "y" [] LOW))))
    /\ version plan' = version scenario_C_world.1 + 1
    /\ revision_count state' = revision_count scenario_C_world.2 + 1
    /\ consecutive_failures state' = 0
    /\ halted state' = true
    /\ next_step plan' state' = Ok (None, plan', state')
    /\ (forall ops : list Op,
           next_step (run ops (plan', state')).1 (run ops (plan', state')).2
           = Ok (None, (run ops (plan', state')).1, (run ops (plan', state')).2)).
Proof.
  apply (revise_plan_ignores_halt scenario_C_world.1 scenario_C_world.2
           (failure_of "y") 1%nat); reflexivity.
Defined.

(** ** C3: the global volatility guard *)

Lemma update_state_failure (plan : Plan) (state : PlanState)
    (outcome : ControllerOutcome) (r : StepRef) (st : Step)
    (plan' : Plan) (state' : PlanState) :
  o_success outcome = false ->
  get_step plan (o_step_id outcome) = Some (r, st) ->
  update_state plan state outcome = Ok (plan', state') ->
  consecutive_failures state' = consecutive_failures state + 1
  /\ halted state'
     = (if negb (failure_count st + 1 <? StepLifecycle.RETRY_CEILING)
           || (2 <=? consecutive_failures state + 1)
        then true else halted state).
Proof.
  intros Hs Hg. unfold update_state. rewrite Hg, Hs.
  unfold StepLifecycle.fail.
  destruct (StepStatus_eqb (status st) ACTIVE); simpl; [|discriminate].
  intros [= <- <-].
  destruct (negb _ || _); simpl; done.
Qed.

Lemma revise_plan_first_failure (plan : Plan) (state : PlanState)
    (failure : ControllerOutcome) (r : StepRef) (st : Step)
    (plan' : Plan) (state' : PlanState) :
  get_step plan (o_step_id failure) = Some (r, st) ->
  failure_count st = 1 ->
  revise_plan plan state failure = Ok (plan', state') ->
  consecutive_failures state' = 0 /\ halted state' = halted state.
Proof.
  intros Hg Hfc. unfold revise_plan. rewrite Hg, Hfc. simpl.
  unfold StepLifecycle.reset_for_retry.
  destruct (StepStatus_eqb (status st) FAILED && _); simpl; [|discriminate].
  by intros [= <- <-].
Qed.

Lemma next_step_state (plan : Plan) (state : PlanState) (r : option StepRef)
    (plan' : Plan) (state' : PlanState) :
  next_step plan state = Ok (r, plan', state') ->
  consecutive_failures state' = consecutive_failures state
  /\ halted state' = halted state.
Proof.
  destruct (next_step_transition plan state)
    as (r0 & p0 & s0 & -> & Hh & Hc & _).
  by intros [= <- <- <-].
Qed.

(** C3 (amended): two failures reported in consecutive [update_state] calls,
    with nothing but a call of [next_step] in between, raise
    [consecutive_failures] by 2, and the second call halts the run when the
    counter started at 0 or above, whatever the failure counts of the two
    steps.  When [revise_plan] is applied in between to a first failure
    (failure count 1), it sets the counter back to 0: the second failure then
    leaves it at 1 and, the step having retries left and the run not being
    halted before, the run is not halted. *)
Theorem volatility_guard :
  (forall (plan : Plan) (state : PlanState) (o1 o2 : ControllerOutcome)
          (plan1 : Plan) (state1 : PlanState) (r : option StepRef)
          (plan1' : Plan) (state1' : PlanState)
          (plan2 : Plan) (state2 : PlanState),
      o_success o1 = false -> o_success o2 = false ->
      is_Some (get_step plan (o_step_id o1)) ->
      update_state plan state o1 = Ok (plan1, state1) ->
      next_step plan1 state1 = Ok (r, plan1', state1') ->
      is_Some (get_step plan1' (o_step_id o2)) ->
      update_state plan1' state1' o2 = Ok (plan2, state2) ->
      consecutive_failures state2 = consecutive_failures state + 2
      /\ (0 <= consecutive_failures state -> halted state2 = true))
  /\ (forall (plan1 : Plan) (state1 : PlanState) (o1 o2 : ControllerOutcome)
             (k1 : StepRef) (st1 : Step) (plan1' : Plan) (state1' : PlanState)
             (k2 : StepRef) (st2 : Step) (plan2 : Plan) (state2 : PlanState),
         get_step plan1 (o_step_id o1) = Some (k1, st1) ->
         failure_count st1 = 1 ->
         revise_plan plan1 state1 o1 = Ok (plan1', state1') ->
         o_success o2 = false ->
         get_step plan1' (o_step_id o2) = Some (k2, st2) ->
         update_state plan1' state1' o2 = Ok (plan2, state2) ->
         consecutive_failures state2 = 1
         /\ (halted state1 = false -> failure_count st2 < 1 ->
             halted state2 = false)).
Proof.
  split.
  - intros plan state o1 o2 plan1 state1 r plan1' state1' plan2 state2
      Hs1 Hs2 [[k1 st1] Hg1] Hu1 Hn [[k2 st2] Hg2] Hu2.
    destruct (update_state_failure _ _ _ _ _ _ _ Hs1 Hg1 Hu1) as [Hc1 _].
    destruct (next_step_state _ _ _ _ _ Hn) as [Hc1' _].
    destruct (update_state_failure _ _ _ _ _ _ _ Hs2 Hg2 Hu2) as [Hc2 Hh2].
    split; [lia|]. intros Hpos. rewrite Hh2.
    assert ((2 <=? consecutive_failures state1' + 1) = true) as ->.
    { apply Z.leb_le. lia. }
    by rewrite orb_true_r.
  - intros plan1 state1 o1 o2 k1 st1 plan1' state1' k2 st2 plan2 state2
      Hg1 Hfc Hr Hs2 Hg2 Hu2.
    destruct (revise_plan_first_failure _ _ _ _ _ _ _ Hg1 Hfc Hr) as [Hc Hh].
    destruct (update_state_failure _ _ _ _ _ _ _ Hs2 Hg2 Hu2) as [Hc2 Hh2].
    split; [lia|]. intros Hnh Hlt. rewrite Hh2, Hc, Hh, Hnh.
    unfold StepLifecycle.RETRY_CEILING.
    assert ((failure_count st2 + 1 <? 2) = true) as -> by (apply Z.ltb_lt; lia).
    done.
Qed.

(** The world of Scenario C after the failure of [x] and the dispatch of
    [y]. *)
Lemma volatility_guard_witness :
  (consecutive_failures scenario_C_world.2 = consecutive_failures fresh_state + 2
   /\ (0 <= consecutive_failures fresh_state ->
       halted scenario_C_world.2 = true))
  /\ (consecutive_failures
        (run scenario_C_revised (two_step_plan, fresh_state)).2 = 1
      /\ (halted
            (run [NextStep; UpdateState (failure_of "x"); NextStep]
                 (two_step_plan, fresh_state)).2 = false ->
          failure_count (set_status ACTIVE (simple_step "y" [] LOW)) < 1 ->
          halted (run scenario_C_revised (two_step_plan, fresh_state)).2
          = false)).
Proof.
  split.
  - eapply (proj1 volatility_guard
              (run [NextStep] (two_step_plan, fresh_state)).1
              (run [NextStep] (two_step_plan, fresh_state)).2
              (failure_of "x") (failure_of "y"));
      try reflexivity; vm_compute; eauto.
  - eapply (proj2 volatility_guard
              (run [NextStep; UpdateState (failure_of "x"); NextStep]
                   (two_step_plan, fresh_state)).1
              (run [NextStep; UpdateState (failure_of "x"); NextStep]
                   (two_step_plan, fresh_state)).2
              (failure_of "x") (failure_of "y") 0%nat);
      vm_compute; reflexivity.
Defined.

(** C3 (as stated) fails: with the revision policy applied to the failure of
    [x] before the failure of [y] is reported, each of the two steps has
    failed once, [consecutive_failures] is 1 and the run is not halted. *)
Lemma revision_resets_volatility_guard :
  failed_steps (run scenario_C_revised (two_step_plan, fresh_state)).2
  = ["x"; "y"]
  /\ failure_count
       <$> steps (run scenario_C_revised (two_step_plan, fresh_state)).1
     = [1; 1]
  /\ consecutive_failures
       (run scenario_C_revised (two_step_plan, fresh_state)).2 = 1
  /\ halted (run scenario_C_revised (two_step_plan, fresh_state)).2 = false.
Proof. vm_compute. done. Qed.

(** ** C2: Scenario A *)

(** Reporting an outcome for a [PENDING] step, or revising one, raises: only
    [next_step] changes a [PENDING] step. *)
Lemma update_state_pending_frame (plan : Plan) (state : PlanState)
    (outcome : ControllerOutcome) (plan' : Plan) (state' : PlanState)
    (i : StepRef) (st : Step) :
  update_state plan state outcome = Ok (plan', state') ->
  steps plan !! i = Some st -> status st = PENDING ->
  steps plan' !! i = Some st.
Proof.
  intros Hu Hi Hst. revert Hu. unfold update_state.
  destruct (get_step plan (o_step_id outcome)) as [[r x]|] eqn:Hg.
  2:{ by intros [= <- <-]. }
  apply get_step_lookup in Hg.
  destruct (o_success outcome);
    unfold StepLifecycle.complete, StepLifecycle.fail;
    destruct (StepStatus_eqb (status x) ACTIVE) eqn:Hact; simpl;
    try discriminate; apply StepStatus_eqb_eq in Hact;
    intros [= <- <-]; simpl;
    (destruct (decide (r = i)) as [->|Hne];
     [congruence|by rewrite list_lookup_insert_ne]).
Qed.

Lemma revise_plan_pending_frame (plan : Plan) (state : PlanState)
    (failure : ControllerOutcome) (plan' : Plan) (state' : PlanState)
    (i : StepRef) (st : Step) :
  revise_plan plan state failure = Ok (plan', state') ->
  steps plan !! i = Some st -> status st = PENDING ->
  steps plan' !! i = Some st.
Proof.
  intros Hr Hi Hst. revert Hr. unfold revise_plan.
  destruct (get_step plan (o_step_id failure)) as [[r x]|] eqn:Hg.
  2:{ by intros [= <- <-]. }
  apply get_step_lookup in Hg.
  unfold StepLifecycle.reset_for_retry, StepLifecycle.skip.
  destruct (failure_count x =? 1);
    [|destruct ((failure_count x =? 2) && StepLifecycle.can_skip x)];
    try (by intros [= <- <-]);
    destruct (StepStatus_eqb (status x) FAILED) eqn:Hf; simpl;
    try discriminate; apply StepStatus_eqb_eq in Hf.
  - destruct (failure_count x <? StepLifecycle.RETRY_CEILING); simpl;
      [|discriminate].
    intros [= <- <-]; simpl.
    destruct (decide (r = i)) as [->|Hne];
      [congruence|by rewrite list_lookup_insert_ne].
  - intros [= <- <-]; simpl.
    destruct (decide (r = i)) as [->|Hne];
      [congruence|by rewrite list_lookup_insert_ne].
Qed.

(** In a halted run a [PENDING] step stays as it is. *)
Lemma halted_pending_frozen (ops : list Op) (w : World) (i : StepRef)
    (st : Step) :
  halted w.2 = true -> steps w.1 !! i = Some st -> status st = PENDING ->
  steps (run ops w).1 !! i = Some st.
Proof.
  revert w. induction ops as [|op ops IH]; intros w Hh Hi Hst; [done|].
  rewrite run_cons. apply IH; [by apply apply_op_transition| |done].
  destruct w as [plan state]. destruct op as [|o|f]; simpl in *.
  - by rewrite next_step_halted.
  - destruct (update_state plan state o) as [[plan' state']|e] eqn:Hu; [|done].
    by eapply update_state_pending_frame.
  - destruct (revise_plan plan state f) as [[plan' state']|e] eqn:Hr; [|done].
    by eapply revise_plan_pending_frame.
Qed.

Lemma scenario_A_world_eq (risk_b : RiskLevel) :
  run scenario_A (linear_plan risk_b, fresh_state)
  = match risk_b with
    | LOW => scenario_A_world_LOW
    | MED => scenario_A_world_MED
    | HIGH => scenario_A_world_HIGH
    end.
Proof. destruct risk_b; vm_compute; reflexivity. Qed.

(** C2 (amended): in Scenario A, whatever the risk level of [b], [a] is
    [DONE]; [b] stays [FAILED] when its risk is [HIGH] and is [SKIPPED]
    otherwise; the run is halted in both cases (the second failure of [b]
    exhausts its retries); and [c] is never activated: it is [PENDING],
    [next_step] returns [None] and changes nothing, and [c] stays [PENDING]
    through any further calls. *)
Theorem scenario_A_outcome (risk_b : RiskLevel) (ops : list Op) :
  statuses (run scenario_A (linear_plan risk_b, fresh_state)).1
  = [DONE; if RiskLevel_eqb risk_b HIGH then FAILED else SKIPPED; PENDING]
  /\ halted (run scenario_A (linear_plan risk_b, fresh_state)).2 = true
  /\ next_step (run scenario_A (linear_plan risk_b, fresh_state)).1
               (run scenario_A (linear_plan risk_b, fresh_state)).2
     = Ok (None, (run scenario_A (linear_plan risk_b, fresh_state)).1,
                 (run scenario_A (linear_plan risk_b, fresh_state)).2)
  /\ statuses (run (scenario_A ++ ops) (linear_plan risk_b, fresh_state)).1
     !! 2%nat = Some PENDING.
Proof.
  rewrite run_app.
  set (w := run scenario_A (linear_plan risk_b, fresh_state)).
  assert (statuses w.1
          = [DONE; if RiskLevel_eqb risk_b HIGH then FAILED else SKIPPED;
             PENDING]
          /\ halted w.2 = true
          /\ steps w.1 !! 2%nat = Some (simple_step "c" ["b"] LOW))
    as (Hs & Hh & Hc).
  { unfold w. rewrite scenario_A_world_eq. by destruct risk_b. }
  split_and!; [done|done|by apply next_step_halted|].
  pose proof (halted_pending_frozen ops w 2%nat _ Hh Hc eq_refl) as Hfrozen.
  unfold StepRef in Hfrozen.
  unfold statuses. by rewrite list_lookup_fmap, Hfrozen.
Qed.

(** C2 (as stated) fails: in the skip case [c] is not activated.  After [b]
    is skipped the run is halted, [c] is still [PENDING] and [next_step]
    hands out nothing. *)
Lemma scenario_A_c_not_activated :
  statuses (run scenario_A (linear_plan MED, fresh_state)).1
  = [DONE; SKIPPED; PENDING]
  /\ halted (run scenario_A (linear_plan MED, fresh_state)).2 = true
  /\ statuses (run (scenario_A ++ [NextStep]) (linear_plan MED, fresh_state)).1
     = [DONE; SKIPPED; PENDING]
  /\ (exists plan' state',
         next_step (run scenario_A (linear_plan MED, fresh_state)).1
                   (run scenario_A (linear_plan MED, fresh_state)).2
         = Ok (None, plan', state'))
  /\ fst (StepLifecycle.can_activate (simple_step "c" ["b"] LOW)
            (run scenario_A (linear_plan MED, fresh_state)).1) = false.
Proof.
  rewrite run_app, (scenario_A_world_eq MED).
  split_and!; try reflexivity. eexists _, _. reflexivity.
Qed.
(** ** C7: operations on unknown references *)

Lemma get_step_unknown (plan : Plan) (sid : string) :
  sid ∉ step_id <$> steps plan -> get_step plan sid = None.
Proof.
  intros Hsid. unfold get_step. apply list_find_None, Forall_forall.
  intros st Hst Heq. apply String.eqb_eq in Heq. apply Hsid.
  apply list_elem_of_fmap. by exists st.
Qed.

Lemma finalize_not_active (self : PlanArtifactLog.t)
    (artifact_id status : string) (now : datetime) :
  PlanArtifactLog.active_artifacts
    (PlanArtifactLog.finalize self artifact_id status now).2 !! artifact_id
  = None.
Proof.
  unfold PlanArtifactLog.finalize.
  destruct (PlanArtifactLog.active_artifacts self !! artifact_id)
    as [data|] eqn:Hid; [|done].
  destruct (PlanArtifactLog.save _ _ _ _ _) as [[filepath written]|e]; simpl;
    apply lookup_delete_eq.
Qed.

(** C7: [update_state] with an outcome whose [step_id] does not occur in the
    plan returns the plan and the state as they are; [record_step] with an
    [artifact_id] that is not active leaves the log as it is; [finalize] with
    such an id returns [None] and leaves the log as it is; none of them
    raises.  After [finalize], whatever it returned, the id is not active and
    [record_step] with it leaves the log as it is. *)
Theorem unknown_reference_noop
    (sha256_hexdigest : string -> string)
    (task_spec_dumps : ControllerTaskSpec -> string)
    (outcome_dumps : ControllerOutcome -> string)
    (plan : Plan) (state : PlanState) (outcome : ControllerOutcome)
    (self : PlanArtifactLog.t) (artifact_id status : string)
    (spec : ControllerTaskSpec) (o : ControllerOutcome) (diff : string)
    (elapsed_ms : Z) (files_touched : option (list string))
    (now : datetime) :
  o_step_id outcome ∉ step_id <$> steps plan ->
  PlanArtifactLog.active_artifacts self !! artifact_id = None ->
  update_state plan state outcome = Ok (plan, state)
  /\ PlanArtifactLog.record_step sha256_hexdigest task_spec_dumps
       outcome_dumps self artifact_id spec o diff elapsed_ms files_touched now
     = self
  /\ PlanArtifactLog.finalize self artifact_id status now = (Ok None, self)
  /\ forall (log : PlanArtifactLog.t) (id : string),
       PlanArtifactLog.record_step sha256_hexdigest task_spec_dumps
         outcome_dumps (PlanArtifactLog.finalize log id status now).2 id
         spec o diff elapsed_ms files_touched now
       = (PlanArtifactLog.finalize log id status now).2.
Proof.
  intros Hsid Hid. split_and!.
  - unfold update_state. by rewrite get_step_unknown.
  - unfold PlanArtifactLog.record_step. by rewrite Hid.
  - unfold PlanArtifactLog.finalize. by rewrite Hid.
  - intros log id. unfold PlanArtifactLog.record_step.
    by rewrite finalize_not_active.
Qed.

(** A report for a step [z] that the two-step plan does not have, and the id
    of a run that the empty log has not started. *)
Lemma unknown_reference_noop_witness :
  update_state two_step_plan fresh_state (success_of "z")
  = Ok (two_step_plan, fresh_state)
  /\ PlanArtifactLog.record_step example_sha256 example_task_spec_dumps
       example_outcome_dumps empty_log "plan-0123456789ab_20260101_000000"
       example_spec (success_of "a") "diff" 12 None example_now
     = empty_log
  /\ PlanArtifactLog.finalize empty_log "plan-0123456789ab_20260101_000000"
       "success" example_now
     = (Ok None, empty_log)
  /\ forall (log : PlanArtifactLog.t) (id : string),
       PlanArtifactLog.record_step example_sha256 example_task_spec_dumps
         example_outcome_dumps
         (PlanArtifactLog.finalize log id "success" example_now).2 id
         example_spec (success_of "a") "diff" 12 None example_now
       = (PlanArtifactLog.finalize log id "success" example_now).2.
Proof.
  apply unknown_reference_noop.
  - vm_compute. intros Hz. apply list_elem_of_In in Hz.
    destruct Hz as [Hz|[Hz|[]]]; discriminate Hz.
  - reflexivity.
Defined.

(** ** C8: artifact round trip *)

Lemma traverse_as_str (key : string) (l : list string) :
  traverse (as_str key) (JStr <$> l) = Ok l.
Proof.
  induction l as [|x l IH]; [done|].
  rewrite fmap_cons. simpl. rewrite IH. done.
Qed.

Lemma StepArtifact_round_trip (s : StepArtifact.t) :
  StepArtifact.from_dict (StepArtifact.to_dict s) = Ok s.
Proof.
  destruct s as [sid spec outcome hash ms ts touched].
  unfold StepArtifact.from_dict, StepArtifact.to_dict, getitem, get_default.
  simpl.
  repeat (rewrite lookup_insert_eq || rewrite lookup_insert_ne by done).
  simpl. rewrite traverse_as_str. done.
Qed.

Lemma traverse_step_artifacts (key : string) (l : list StepArtifact.t) :
  traverse (fun s => as_dict key s ≫= StepArtifact.from_dict)
           ((fun s => JDict (StepArtifact.to_dict s)) <$> l)
  = Ok l.
Proof.
  induction l as [|x l IH]; [done|].
  rewrite fmap_cons. simpl. rewrite StepArtifact_round_trip. simpl.
  rewrite IH. done.
Qed.


















(** ** C9: artifact identifiers and the order of the listing *)


Lemma string_compare_cons (x y : Ascii.ascii) (a b : string) :
  String.compare (String x a) (String y b)
  = match Ascii.compare x y with
    | Eq => String.compare a b
    | o => o
    end.
Proof. simpl. by destruct (Ascii.compare x y). Qed.

Lemma string_leb_trans (a b c : string) :
  String.leb a b = true -> String.leb b c = true -> String.leb a c = true.
Proof.
  unfold String.leb. revert b c.
  induction a as [|x a IH]; intros [|y b] [|z c]; try done.
  rewrite !string_compare_cons. unfold Ascii.compare.
  destruct (N.compare_spec (Ascii.N_of_ascii x) (Ascii.N_of_ascii y));
    destruct (N.compare_spec (Ascii.N_of_ascii y) (Ascii.N_of_ascii z));
    destruct (N.compare_spec (Ascii.N_of_ascii x) (Ascii.N_of_ascii z));
    try done; try lia.
  apply IH.
Qed.


#[local] Instance str_ge_trans : Transitive str_ge.
Proof. intros a b c Hab Hbc. unfold str_ge in *. by eapply string_leb_trans. Qed.

#[local] Instance str_ge_total : Total str_ge.
Proof. intros a b. unfold str_ge. destruct (String.leb_total a b); auto. Qed.



Lemma string_length_app (a b : string) :
  String.length (a +:+ b) = (String.length a + String.length b)%nat.
Proof. induction a as [|x a IH]; simpl; [done|by rewrite IH]. Qed.








Lemma string_prefix_app (kw b : string) : String.prefix kw (kw +:+ b) = true.
Proof.
  induction kw as [|c kw IH]; simpl; [by destruct b|].
  by destruct (Ascii.ascii_dec c c).
Qed.








(** ** The file system *)





























(** * Further properties of the scheduler *)

(** The case analysis of one call: which branch the operation takes. *)
Ltac op_cases plan state op :=
  destruct op as [|?o|?o]; simpl;
  [ rewrite (next_step_find plan state);
    destruct (halted state) eqn:?;
    [|destruct (list_find _ (steps plan)) as [[?k ?st]|] eqn:?Hfind; simpl;
      [destruct (status st) eqn:?Hstatus|]]
  | unfold update_state;
    destruct (get_step plan (o_step_id o)) as [[?k ?st]|] eqn:?Hget;
    [destruct (o_success o) eqn:?Hsuccess;
     unfold StepLifecycle.complete, StepLifecycle.fail;
     destruct (StepStatus_eqb (status st) ACTIVE) eqn:?Hactive; simpl;
     try destruct (negb (failure_count st + 1 <? StepLifecycle.RETRY_CEILING)
                   || (2 <=? consecutive_failures state + 1)) eqn:?Hhalt|]
  | unfold revise_plan;
    destruct (get_step plan (o_step_id o)) as [[?k ?st]|] eqn:?Hget;
    [destruct (failure_count st =? 1) eqn:?Hfirst;
     [unfold StepLifecycle.reset_for_retry;
      destruct (StepStatus_eqb (status st) FAILED
                && (failure_count st <? StepLifecycle.RETRY_CEILING))
        eqn:?Hreset; simpl
     |destruct ((failure_count st =? 2) && StepLifecycle.can_skip st)
        eqn:?Hskip;
      [unfold StepLifecycle.skip;
       destruct (StepStatus_eqb (status st) FAILED) eqn:?Hfailed; simpl|]]|] ].

(** An invariant of every call is an invariant of every run. *)
Lemma run_invariant (P : World -> Prop) :
  (forall (op : Op) (w : World), P w -> P (apply_op op w)) ->
  forall (ops : list Op) (w : World), P w -> P (run ops w).
Proof.
  intros Hop ops. induction ops as [|op ops IH]; intros w Hw; [done|].
  rewrite run_cons. by apply IH, Hop.
Qed.

Lemma apply_op_revisions (op : Op) (w : World) :
  version (apply_op op w).1 - revision_count (apply_op op w).2
  = version w.1 - revision_count w.2
  /\ revision_count w.2 <= revision_count (apply_op op w).2.
Proof.
  destruct w as [plan state]. op_cases plan state op; simpl; lia.
Qed.

(** X1: [plan.version] and [state.revision_count] move together: whatever is
    called, the version has grown by exactly as much as the revision count,
    and neither ever decreases. *)
Theorem version_counts_revisions (ops : list Op) (plan : Plan)
    (state : PlanState) :
  version (run ops (plan, state)).1 - version plan
  = revision_count (run ops (plan, state)).2 - revision_count state
  /\ revision_count state <= revision_count (run ops (plan, state)).2
  /\ version plan <= version (run ops (plan, state)).1.
Proof.
  assert (version (run ops (plan, state)).1
          - revision_count (run ops (plan, state)).2
          = version plan - revision_count state
          /\ revision_count state <= revision_count (run ops (plan, state)).2)
    as [He Hle]; [|lia].
  apply (run_invariant
           (fun w => version w.1 - revision_count w.2
                     = version plan - revision_count state
                     /\ revision_count state <= revision_count w.2));
    [|done].
  intros op w [He Hle]. destruct (apply_op_revisions op w). lia.
Qed.

Lemma apply_op_logs (op : Op) (w : World) :
  completed_steps w.2 `prefix_of` completed_steps (apply_op op w).2
  /\ failed_steps w.2 `prefix_of` failed_steps (apply_op op w).2.
Proof.
  destruct w as [plan state].
  op_cases plan state op; simpl; split; try done; by apply prefix_app_r.
Qed.

(** X2: [completed_steps] and [failed_steps] are logs: whatever is called, what
    they held is still there, in the same order, at their beginning. *)
Theorem step_logs_grow (ops : list Op) (plan : Plan) (state : PlanState) :
  completed_steps state `prefix_of` completed_steps (run ops (plan, state)).2
  /\ failed_steps state `prefix_of` failed_steps (run ops (plan, state)).2.
Proof.
  apply (run_invariant
           (fun w => completed_steps state `prefix_of` completed_steps w.2
                     /\ failed_steps state `prefix_of` failed_steps w.2));
    [|done].
  intros op w [Hc Hf]. destruct (apply_op_logs op w) as [Hc' Hf'].
  split; by etrans.
Qed.

Lemma apply_op_volatility (op : Op) (w : World) :
  0 <= consecutive_failures w.2
  /\ (2 <= consecutive_failures w.2 -> halted w.2 = true) ->
  0 <= consecutive_failures (apply_op op w).2
  /\ (2 <= consecutive_failures (apply_op op w).2 ->
      halted (apply_op op w).2 = true).
Proof.
  destruct w as [plan state]. intros [H0 H2].
  op_cases plan state op; simpl in *; (split; [lia|done || lia]).
Qed.

(** X3: From a fresh state, as long as the run is not halted,
    [consecutive_failures] is 0 or 1: the second failure in a row halts. *)
Theorem consecutive_failures_bounded (ops : list Op) (plan : Plan) :
  halted (run ops (plan, fresh_state)).2 = false ->
  0 <= consecutive_failures (run ops (plan, fresh_state)).2 <= 1.
Proof.
  intros Hh.
  assert (0 <= consecutive_failures (run ops (plan, fresh_state)).2
          /\ (2 <= consecutive_failures (run ops (plan, fresh_state)).2 ->
              halted (run ops (plan, fresh_state)).2 = true)) as [H0 H2].
  { apply (run_invariant
             (fun w => 0 <= consecutive_failures w.2
                       /\ (2 <= consecutive_failures w.2 -> halted w.2 = true))).
    - intros op w. apply apply_op_volatility.
    - simpl. split; [lia|]. intros; lia. }
  split; [done|].
  destruct (decide (2 <= consecutive_failures (run ops (plan, fresh_state)).2))
    as [H|H]; [|lia].
  apply H2 in H. congruence.
Qed.

(** Scenario C with the failure of [x] revised before [y] fails: the run is
    not halted. *)
Lemma consecutive_failures_bounded_witness :
  0 <= consecutive_failures
         (run scenario_C_revised (two_step_plan, fresh_state)).2 <= 1.
Proof. apply consecutive_failures_bounded. vm_compute. reflexivity. Defined.

Lemma apply_op_halt_reason (op : Op) (w : World) :
  (halted w.2 = true ->
   exists (sid : string) (n : Z),
     halt_reason w.2
     = "Step " +:+ sid +:+ " failed " +:+ pretty n +:+ " times"
     /\ sid ∈ failed_steps w.2) ->
  halted (apply_op op w).2 = true ->
  exists (sid : string) (n : Z),
    halt_reason (apply_op op w).2
    = "Step " +:+ sid +:+ " failed " +:+ pretty n +:+ " times"
    /\ sid ∈ failed_steps (apply_op op w).2.
Proof.
  destruct w as [plan state].
  op_cases plan state op; simpl; intros Hinv Hh; try congruence;
    try by apply Hinv.
  - exists (o_step_id o), (failure_count st + 1). split; [done|].
    apply elem_of_app. right. by apply list_elem_of_singleton.
  - destruct (Hinv Hh) as (sid & n & Hr & Hin). exists sid, n.
    split; [done|]. apply elem_of_app. by left.
Qed.

(** X4: From a fresh state, a halted run carries a reason of the form
    [Step <id> failed <n> times], and the step it names is among
    [failed_steps]. *)
Theorem halt_reason_names_failed_step (ops : list Op) (plan : Plan) :
  halted (run ops (plan, fresh_state)).2 = true ->
  exists (sid : string) (n : Z),
    halt_reason (run ops (plan, fresh_state)).2
    = "Step " +:+ sid +:+ " failed " +:+ pretty n +:+ " times"
    /\ sid ∈ failed_steps (run ops (plan, fresh_state)).2.
Proof.
  apply (run_invariant
           (fun w => halted w.2 = true ->
                     exists (sid : string) (n : Z),
                       halt_reason w.2
                       = "Step " +:+ sid +:+ " failed " +:+ pretty n
                         +:+ " times"
                       /\ sid ∈ failed_steps w.2)).
  - intros op w. apply apply_op_halt_reason.
  - simpl. discriminate.
Qed.

(** Scenario C: the second failure in a row halts the run. *)
Lemma halt_reason_names_failed_step_witness :
  exists (sid : string) (n : Z),
    halt_reason (run scenario_C (two_step_plan, fresh_state)).2
    = "Step " +:+ sid +:+ " failed " +:+ pretty n +:+ " times"
    /\ sid ∈ failed_steps (run scenario_C (two_step_plan, fresh_state)).2.
Proof. apply halt_reason_names_failed_step. vm_compute. reflexivity. Defined.

(** ** What a call leaves alone *)

Lemma step_transition_frame (st st' : Step) :
  step_transition st st' -> step_frame st' = step_frame st.
Proof. by intros []. Qed.

Lemma plan_transition_frame (plan plan' : Plan) :
  plan_transition plan plan' ->
  step_frame <$> steps plan' = step_frame <$> steps plan
  /\ plan_id plan' = plan_id plan /\ goal plan' = goal plan
  /\ created_at plan' = created_at plan
  /\ assumptions plan' = assumptions plan
  /\ constraints plan' = constraints plan.
Proof.
  intros [->|(k & st & st' & v & Hk & Ht & ->)]; [done|]. simpl.
  split_and!; try done.
  rewrite list_fmap_insert, (step_transition_frame st st' Ht).
  apply list_insert_id. unfold StepRef in *.
  by rewrite list_lookup_fmap, Hk.
Qed.

Lemma run_plan_frame (ops : list Op) (plan : Plan) (state : PlanState) :
  step_frame <$> steps (run ops (plan, state)).1 = step_frame <$> steps plan
  /\ plan_id (run ops (plan, state)).1 = plan_id plan
  /\ goal (run ops (plan, state)).1 = goal plan
  /\ created_at (run ops (plan, state)).1 = created_at plan
  /\ assumptions (run ops (plan, state)).1 = assumptions plan
  /\ constraints (run ops (plan, state)).1 = constraints plan.
Proof.
  apply (run_invariant
           (fun w => step_frame <$> steps w.1 = step_frame <$> steps plan
                     /\ plan_id w.1 = plan_id plan /\ goal w.1 = goal plan
                     /\ created_at w.1 = created_at plan
                     /\ assumptions w.1 = assumptions plan
                     /\ constraints w.1 = constraints plan)); [|done].
  intros op w (Hs & ? & ? & ? & ? & ?).
  destruct (apply_op_transition op w) as [Ht _].
  apply plan_transition_frame in Ht as (Hs' & ? & ? & ? & ? & ?).
  split_and!; congruence.
Qed.

Lemma run_length (ops : list Op) (plan : Plan) (state : PlanState) :
  length (steps (run ops (plan, state)).1) = length (steps plan).
Proof.
  destruct (run_plan_frame ops plan state) as [Hs _].
  by rewrite <- (length_fmap step_frame), Hs, length_fmap.
Qed.

(** X5: No call adds, removes or reorders steps, or changes anything of a step
    but its status, failure count, stored outcome and skip reason; the plan
    keeps its id, goal, creation time, assumptions and constraints. *)
Theorem run_keeps_plan_frame (ops : list Op) (plan : Plan)
    (state : PlanState) :
  step_frame <$> steps (run ops (plan, state)).1 = step_frame <$> steps plan
  /\ length (steps (run ops (plan, state)).1) = length (steps plan)
  /\ plan_id (run ops (plan, state)).1 = plan_id plan
  /\ goal (run ops (plan, state)).1 = goal plan
  /\ created_at (run ops (plan, state)).1 = created_at plan
  /\ assumptions (run ops (plan, state)).1 = assumptions plan
  /\ constraints (run ops (plan, state)).1 = constraints plan.
Proof.
  destruct (run_plan_frame ops plan state) as (Hs & ? & ? & ? & ? & ?).
  split_and!; try done. apply run_length.
Qed.

(** ** Dispatch and completion *)

Lemma is_complete_false (plan : Plan) (state : PlanState) (k : nat)
    (st : Step) :
  halted state = false -> steps plan !! k = Some st ->
  status st <> DONE -> status st <> SKIPPED ->
  is_complete plan state = false.
Proof.
  intros Hh Hk Hd Hs. unfold is_complete. rewrite Hh.
  apply not_true_is_false. intros Hall.
  rewrite forallb_forall in Hall.
  specialize (Hall st). rewrite <- list_elem_of_In in Hall.
  specialize (Hall (list_elem_of_lookup_2 _ _ _ Hk)).
  by destruct (status st).
Qed.

Lemma is_complete_terminal (plan : Plan) (state : PlanState) (k : nat)
    (st : Step) :
  is_complete plan state = true -> halted state = false ->
  steps plan !! k = Some st -> status st = DONE \/ status st = SKIPPED.
Proof.
  intros Hc Hh Hk.
  destruct (status st) eqn:Hst; auto;
    by rewrite (is_complete_false plan state k st) in Hc by congruence.
Qed.

(** X6: When [next_step] returns a step, the run is not halted, the step is
    [ACTIVE] in the plan the call leaves, no step before it could be
    dispatched, and the plan is not complete. *)
Theorem next_step_returns_active (plan : Plan) (state : PlanState)
    (r : StepRef) (plan' : Plan) (state' : PlanState) :
  next_step plan state = Ok (Some r, plan', state') ->
  halted state' = false
  /\ (exists st : Step, steps plan' !! r = Some st /\ status st = ACTIVE)
  /\ (forall (i : nat) (st : Step),
         (i < r)%nat -> steps plan !! i = Some st ->
         dispatchable plan st = false)
  /\ is_complete plan' state' = false.
Proof.
  rewrite next_step_find. destruct (halted state) eqn:Hh; [discriminate|].
  destruct (list_find _ (steps plan)) as [[k st]|] eqn:Hf; [|discriminate].
  apply list_find_Some in Hf as (Hk & Hd & Hbefore). simpl.
  assert (forall (i : nat) (x : Step),
             (i < k)%nat -> steps plan !! i = Some x ->
             dispatchable plan x = false) as Hnone.
  { intros i x Hi Hx. apply not_true_is_false. by eapply Hbefore. }
  unfold dispatchable in Hd. unfold scan_result.
  change (0 + k)%nat with k.
  destruct (status st) eqn:Hst; try discriminate Hd; intros [= <- <- <-].
  - assert (steps (store_step plan k (set_status ACTIVE st)) !! k
            = Some (set_status ACTIVE st)) as Hk'.
    { apply list_lookup_insert_eq. by eapply lookup_lt_Some. }
    split_and!; [done|by eexists|done|].
    by apply (is_complete_false _ _ k (set_status ACTIVE st)).
  - split_and!; [done|by exists st|done|].
    by apply (is_complete_false plan state k st); rewrite ?Hst.
Qed.

(** The linear plan with [a] done and [b] in flight: [next_step] hands out
    [b] again. *)
Lemma next_step_returns_active_witness :
  halted b_dispatched_world.2 = false
  /\ (exists st : Step,
         steps b_dispatched_world.1 !! 1%nat = Some st /\ status st = ACTIVE)
  /\ (forall (i : nat) (st : Step),
         (i < 1)%nat -> steps b_dispatched_world.1 !! i = Some st ->
         dispatchable b_dispatched_world.1 st = false)
  /\ is_complete b_dispatched_world.1 b_dispatched_world.2 = false.
Proof.
  apply (next_step_returns_active b_dispatched_world.1 b_dispatched_world.2
           1%nat b_dispatched_world.1 b_dispatched_world.2).
  vm_compute. reflexivity.
Defined.

Lemma apply_op_finished (op : Op) (plan : Plan) (state : PlanState) :
  is_complete plan state = true -> halted state = false ->
  apply_op op (plan, state) = (plan, state).
Proof.
  intros Hc Hh.
  assert (forall (k : nat) (st : Step),
             steps plan !! k = Some st ->
             status st = DONE \/ status st = SKIPPED) as Hterminal.
  { intros k st. by apply (is_complete_terminal plan state). }
  op_cases plan state op; try done;
    try (apply list_find_Some in Hfind as (Hk & Hd & _);
         unfold dispatchable in Hd;
         destruct (Hterminal _ _ Hk) as [Hs|Hs]; rewrite Hs in *;
         simpl in *; congruence);
    apply get_step_lookup in Hget;
    destruct (Hterminal _ _ Hget) as [Hs|Hs]; rewrite Hs in *;
    simpl in *; congruence.
Qed.

(** X7: A complete run stays complete whatever is called next; and when it is
    complete because every step is [DONE] or [SKIPPED], the run not being
    halted, no call changes the plan or the state any more: reports and
    revisions for its steps raise, and [next_step] finds nothing. *)
Theorem completion_is_final (ops : list Op) (plan : Plan)
    (state : PlanState) :
  is_complete plan state = true ->
  is_complete (run ops (plan, state)).1 (run ops (plan, state)).2 = true
  /\ (halted state = false -> run ops (plan, state) = (plan, state)).
Proof.
  intros Hc. destruct (halted state) eqn:Hh.
  - split; [|done]. unfold is_complete.
    by rewrite (run_halted ops (plan, state) Hh).
  - assert (run ops (plan, state) = (plan, state)) as ->; [|done].
    induction ops as [|op ops IH]; [done|].
    by rewrite run_cons, apply_op_finished.
Qed.

(** The linear plan with its three steps done: a report of a failure of
    [a], its revision and a dispatch attempt change nothing. *)
Lemma completion_is_final_witness :
  is_complete
    (run [UpdateState (failure_of "a"); RevisePlan (failure_of "a"); NextStep]
         (finished_world.1, finished_world.2)).1
    (run [UpdateState (failure_of "a"); RevisePlan (failure_of "a"); NextStep]
         (finished_world.1, finished_world.2)).2 = true
  /\ (halted finished_world.2 = false ->
      run [UpdateState (failure_of "a"); RevisePlan (failure_of "a"); NextStep]
          (finished_world.1, finished_world.2)
      = (finished_world.1, finished_world.2)).
Proof. apply completion_is_final. vm_compute. reflexivity. Defined.

(** ** The summary *)

Lemma done_count_store (plan : Plan) (k : nat) (st st' : Step) :
  steps plan !! k = Some st ->
  (done_count (store_step plan k st')
   + (if StepStatus_eqb (status st) DONE then 1 else 0)
   = done_count plan
     + (if StepStatus_eqb (status st') DONE then 1 else 0))%nat.
Proof.
  intros Hk. unfold done_count, store_step. simpl.
  rewrite insert_take_drop by by eapply lookup_lt_Some.
  rewrite <- (take_drop_middle (steps plan) k st Hk) at 3.
  rewrite !List.filter_app, !length_app. simpl.
  destruct (StepStatus_eqb (status st) DONE),
    (StepStatus_eqb (status st') DONE); simpl; lia.
Qed.

Lemma apply_op_done_count (op : Op) (w : World) :
  length (completed_steps w.2) = done_count w.1 ->
  length (completed_steps (apply_op op w).2) = done_count (apply_op op w).1.
Proof.
  destruct w as [plan state]. simpl. intros Hinv.
  op_cases plan state op; simpl; try done;
    try (apply list_find_Some in Hfind as (Hk & Hd & _);
         unfold dispatchable in Hd; rewrite Hstatus in Hd;
         try discriminate Hd);
    try (apply get_step_lookup in Hget; rename Hget into Hk);
    try (apply StepStatus_eqb_eq in Hactive);
    try (apply andb_true_iff in Hreset as [Hfailed _]);
    try (apply StepStatus_eqb_eq in Hfailed);
    match goal with
    | |- context [store_step plan ?k ?x] =>
        pose proof (done_count_store plan k st x Hk) as Hcount
    end;
    simpl in Hcount; rewrite ?Hstatus, ?Hactive, ?Hfailed in Hcount;
    simpl in Hcount; rewrite ?length_app; simpl;
    unfold done_count in *; simpl in *; lia.
Qed.

(** X8: In a run that starts from a fresh state with no step [DONE], the
    [completed] count of the summary is the number of steps that are [DONE]:
    it never exceeds [total_steps], which is the number of steps the plan
    started with. *)
Theorem summary_counts_done_steps (ops : list Op) (plan : Plan) :
  done_count plan = 0%nat ->
  get_plan_summary (run ops (plan, fresh_state)).1
                   (run ops (plan, fresh_state)).2 !! "completed"
  = Some (JInt (Z.of_nat (done_count (run ops (plan, fresh_state)).1)))
  /\ get_plan_summary (run ops (plan, fresh_state)).1
                      (run ops (plan, fresh_state)).2 !! "total_steps"
     = Some (JInt (Z.of_nat (length (steps plan))))
  /\ (done_count (run ops (plan, fresh_state)).1 <= length (steps plan))%nat.
Proof.
  intros Hdone.
  assert (length (completed_steps (run ops (plan, fresh_state)).2)
          = done_count (run ops (plan, fresh_state)).1) as Hcount.
  { apply (run_invariant
             (fun w => length (completed_steps w.2) = done_count w.1)).
    - apply apply_op_done_count.
    - simpl. by rewrite Hdone. }
  pose proof (run_length ops plan fresh_state) as Hlen.
  unfold get_plan_summary.
  repeat (rewrite lookup_insert_eq || rewrite lookup_insert_ne by done).
  rewrite Hcount, Hlen. split_and!; [done..|].
  rewrite <- Hlen. unfold done_count. apply List.filter_length_le.
Qed.

(** Scenario A: of the three steps only [a] is done. *)
Lemma summary_counts_done_steps_witness :
  get_plan_summary (run scenario_A (linear_plan MED, fresh_state)).1
                   (run scenario_A (linear_plan MED, fresh_state)).2
    !! "completed"
  = Some (JInt (Z.of_nat
                  (done_count (run scenario_A (linear_plan MED, fresh_state)).1)))
  /\ get_plan_summary (run scenario_A (linear_plan MED, fresh_state)).1
                      (run scenario_A (linear_plan MED, fresh_state)).2
       !! "total_steps"
     = Some (JInt (Z.of_nat (length (steps (linear_plan MED)))))
  /\ (done_count (run scenario_A (linear_plan MED, fresh_state)).1
      <= length (steps (linear_plan MED)))%nat.
Proof. apply summary_counts_done_steps. vm_compute. reflexivity. Defined.

(** ** Running a plan to completion *)

Lemma existsb_eqb_elem_of (s : string) (l : list string) :
  existsb (String.eqb s) l = true <-> s ∈ l.
Proof.
  rewrite existsb_exists. split.
  - intros (x & Hx & He). apply String.eqb_eq in He as ->.
    by apply list_elem_of_In.
  - intros Hs. exists s. split; [by apply list_elem_of_In|].
    apply String.eqb_refl.
Qed.

Section Drive.

Variables (d t : list Step) (x : Step) (plan : Plan) (state : PlanState).

Hypothesis Hsteps : steps plan = (completed <$> d) ++ x :: t.
Hypothesis Hpending : status x = PENDING.
Hypothesis Hfresh : step_id x ∉ step_id <$> d.
Hypothesis Hdeps : forall dep : string,
  dep ∈ dependencies x -> dep ∈ step_id <$> d.
Hypothesis Hrunning : halted state = false.

Lemma done_dependency (dep : string) :
  dep ∈ step_id <$> d -> StepLifecycle.dependency_done plan dep = true.
Proof.
  intros Hdep. apply list_elem_of_fmap in Hdep as (z & -> & Hz).
  apply list_elem_of_lookup_1 in Hz as [i Hi].
  assert (steps plan !! i = Some (completed z)) as Hplan.
  { rewrite Hsteps, lookup_app_l, list_lookup_fmap, Hi; [done|].
    rewrite length_fmap. by eapply lookup_lt_Some. }
  unfold StepLifecycle.dependency_done, get_step.
  destruct (list_find _ (steps plan)) as [[j y]|] eqn:Hfind.
  - apply list_find_Some in Hfind as (Hj & Hy & Hmin).
    destruct (decide (j < length d)%nat) as [Hlt|Hge].
    + rewrite Hsteps, lookup_app_l, list_lookup_fmap in Hj
        by by rewrite length_fmap.
      destruct (d !! j); [|done]. by injection Hj as <-.
    + exfalso. apply (Hmin i (completed z) Hplan).
      * apply lookup_lt_Some in Hi. lia.
      * simpl. apply String.eqb_refl.
  - exfalso. apply list_find_None in Hfind.
    rewrite Forall_forall in Hfind.
    apply (Hfind (completed z) (list_elem_of_lookup_2 _ _ _ Hplan)).
    simpl. apply String.eqb_refl.
Qed.

Lemma next_step_dispatches :
  next_step plan state
  = Ok (Some (length d),
        store_step plan (length d) (set_status ACTIVE x),
        set_current_step_idx
          (get_step_index (store_step plan (length d) (set_status ACTIVE x))
             (step_id x)) state).
Proof.
  rewrite next_step_find, Hrunning.
  assert (list_find (fun st => dispatchable plan st = true) (steps plan)
          = Some (length d, x)) as ->.
  { apply list_find_Some. split_and!.
    - rewrite Hsteps, lookup_app_r by by rewrite length_fmap.
      by rewrite length_fmap, Nat.sub_diag.
    - unfold dispatchable. rewrite Hpending.
      apply can_activate_true. split; [done|].
      apply Forall_forall. intros dep Hdep. by apply done_dependency, Hdeps.
    - intros j y Hj Hlt. rewrite Hsteps, lookup_app_l, list_lookup_fmap in Hj
        by by rewrite length_fmap.
      destruct (d !! j); [|done]. by injection Hj as <-. }
  unfold scan_result. by rewrite Hpending.
Qed.

Lemma dispatched_steps :
  steps (store_step plan (length d) (set_status ACTIVE x))
  = (completed <$> d) ++ set_status ACTIVE x :: t.
Proof.
  unfold store_step. simpl. rewrite Hsteps.
  rewrite insert_app_r_alt by by rewrite length_fmap.
  by rewrite length_fmap, Nat.sub_diag.
Qed.

Lemma update_state_completes (state' : PlanState) :
  update_state (store_step plan (length d) (set_status ACTIVE x)) state'
    (success_of (step_id x))
  = Ok (set_steps ((completed <$> (d ++ [x])) ++ t) plan,
        set_consecutive_failures 0
          (set_completed_steps (completed_steps state' ++ [step_id x]) state')).
Proof.
  unfold update_state.
  assert (get_step (store_step plan (length d) (set_status ACTIVE x))
            (o_step_id (success_of (step_id x)))
          = Some (length d, set_status ACTIVE x)) as ->.
  { unfold get_step. apply list_find_Some. rewrite dispatched_steps.
    split_and!.
    - rewrite lookup_app_r by by rewrite length_fmap.
      by rewrite length_fmap, Nat.sub_diag.
    - simpl. apply String.eqb_refl.
    - intros j y Hj Hlt.
      rewrite lookup_app_l, list_lookup_fmap in Hj by by rewrite length_fmap.
      destruct (d !! j) as [z|] eqn:Hz; [|done]. injection Hj as <-.
      simpl. intros He. apply String.eqb_eq in He. apply Hfresh.
      rewrite <- He. apply list_elem_of_fmap. exists z.
      split; [done|]. by eapply list_elem_of_lookup_2. }
  simpl. unfold store_step, set_steps. simpl. rewrite Hsteps.
  repeat f_equal.
  rewrite list_insert_insert_eq, insert_app_r_alt
    by by rewrite length_fmap.
  rewrite length_fmap, Nat.sub_diag, fmap_app, <- app_assoc. done.
Qed.

End Drive.

Lemma drive_successes_run (t : list Step) :
  forall (d : list Step) (plan : Plan) (state : PlanState),
    steps plan = (completed <$> d) ++ t ->
    ordered_from (step_id <$> d) t = true ->
    halted state = false ->
    steps (run (drive_successes t) (plan, state)).1 = completed <$> (d ++ t)
    /\ halted (run (drive_successes t) (plan, state)).2 = false
    /\ completed_steps (run (drive_successes t) (plan, state)).2
       = completed_steps state ++ (step_id <$> t)
    /\ failed_steps (run (drive_successes t) (plan, state)).2
       = failed_steps state.
Proof.
  induction t as [|x t IH]; intros d plan state Hsteps Hord Hh.
  { simpl. by rewrite !app_nil_r in *. }
  simpl in Hord. rewrite !andb_true_iff in Hord.
  destruct Hord as [[[Hpending Hfresh] Hdeps] Hord].
  apply StepStatus_eqb_eq in Hpending.
  assert (step_id x ∉ step_id <$> d) as Hfresh'.
  { intros Hin. apply existsb_eqb_elem_of in Hin. by rewrite Hin in Hfresh. }
  assert (forall dep : string,
             dep ∈ dependencies x -> dep ∈ step_id <$> d) as Hdeps'.
  { intros dep Hdep. apply existsb_eqb_elem_of.
    rewrite forallb_forall in Hdeps. by apply Hdeps, list_elem_of_In. }
  change (drive_successes (x :: t))
    with (NextStep :: UpdateState (success_of (step_id x))
            :: drive_successes t).
  rewrite !run_cons.
  unfold apply_op at 2. simpl fst. simpl snd.
  rewrite (next_step_dispatches d t x plan state Hsteps Hpending Hdeps' Hh).
  unfold apply_op. simpl fst. simpl snd.
  rewrite (update_state_completes d t x plan Hsteps Hfresh').
  destruct (IH (d ++ [x])
              (set_steps ((completed <$> (d ++ [x])) ++ t) plan)
              (set_consecutive_failures 0
                 (set_completed_steps
                    (completed_steps
                       (set_current_step_idx
                          (get_step_index
                             (store_step plan (length d)
                                (set_status ACTIVE x)) (step_id x)) state)
                     ++ [step_id x])
                    (set_current_step_idx
                       (get_step_index
                          (store_step plan (length d) (set_status ACTIVE x))
                          (step_id x)) state))))
    as (Hs & Hh' & Hc & Hf); [done| |done|].
  { by rewrite fmap_app. }
  split_and!; [|done| |done].
  - by rewrite Hs, <- app_assoc.
  - rewrite Hc. simpl. by rewrite <- app_assoc.
Qed.

(** X9: A plan whose steps are in dependency order (all [PENDING], ids
    distinct, each step depending only on steps before it) is run to
    completion by a caller that asks for the next step and reports its
    success, once per step: every step ends [DONE] with its outcome stored,
    [completed_steps] lists the ids in plan order, nothing is recorded as
    failed, the run is not halted and the plan is complete. *)
Theorem successes_complete_plan (plan : Plan) :
  dependency_ordered plan = true ->
  steps (run (drive_successes (steps plan)) (plan, fresh_state)).1
  = completed <$> steps plan
  /\ is_complete (run (drive_successes (steps plan)) (plan, fresh_state)).1
                 (run (drive_successes (steps plan)) (plan, fresh_state)).2
     = true
  /\ halted (run (drive_successes (steps plan)) (plan, fresh_state)).2 = false
  /\ completed_steps (run (drive_successes (steps plan)) (plan, fresh_state)).2
     = step_id <$> steps plan
  /\ failed_steps (run (drive_successes (steps plan)) (plan, fresh_state)).2
     = [].
Proof.
  intros Hord.
  destruct (drive_successes_run (steps plan) [] plan fresh_state)
    as (Hs & Hh & Hc & Hf); [done..|].
  split_and!; try done.
  unfold is_complete. rewrite Hh, Hs. apply forallb_forall.
  intros st Hst. apply list_elem_of_In, list_elem_of_fmap in Hst
    as (z & -> & _). done.
Qed.

(** The linear plan [a -> b -> c]. *)
Lemma successes_complete_plan_witness :
  steps (run (drive_successes (steps (linear_plan MED)))
             (linear_plan MED, fresh_state)).1
  = completed <$> steps (linear_plan MED)
  /\ is_complete
       (run (drive_successes (steps (linear_plan MED)))
            (linear_plan MED, fresh_state)).1
       (run (drive_successes (steps (linear_plan MED)))
            (linear_plan MED, fresh_state)).2
     = true
  /\ halted (run (drive_successes (steps (linear_plan MED)))
                 (linear_plan MED, fresh_state)).2 = false
  /\ completed_steps (run (drive_successes (steps (linear_plan MED)))
                          (linear_plan MED, fresh_state)).2
     = step_id <$> steps (linear_plan MED)
  /\ failed_steps (run (drive_successes (steps (linear_plan MED)))
                       (linear_plan MED, fresh_state)).2
     = [].
Proof. apply successes_complete_plan. vm_compute. reflexivity. Defined.

(** ** The plans of [propose_plan] *)

Lemma substring_length (n : nat) (s : string) :
  String.length (String.substring 0 n s) = Nat.min n (String.length s).
Proof.
  revert s. induction n as [|n IH]; intros [|c s]; simpl; try done.
  by rewrite IH.
Qed.

(** X10: Whatever the goal and the context, the plan [propose_plan] returns is one
    of the three templates, of 6, 7 or 3 steps; it carries the generated id
    and the goal; its steps are in dependency order, none is [HIGH]-risk and
    each [MED]-risk one has a rollback hint; and reports of success run it to
    completion. *)
Theorem propose_plan_runs_to_completion (lower sha256_hexdigest : string -> string)
    (seed : Z) (wanted : string) (context : gmap string string)
    (now : datetime) :
  plan_id (PlannerV2.propose_plan lower sha256_hexdigest seed wanted context now)
  = PlannerV2._generate_plan_id sha256_hexdigest seed wanted
  /\ goal (PlannerV2.propose_plan lower sha256_hexdigest seed wanted context now)
     = wanted
  /\ length (steps (PlannerV2.propose_plan lower sha256_hexdigest seed wanted
                      context now))
     = (if String.eqb (PlannerV2._detect_goal_type lower wanted) "repair" then 6
        else if String.eqb (PlannerV2._detect_goal_type lower wanted) "feature"
             then 7 else 3)%nat
  /\ dependency_ordered
       (PlannerV2.propose_plan lower sha256_hexdigest seed wanted context now)
     = true
  /\ Forall (fun st => risk_level st <> HIGH
                       /\ (risk_level st = MED -> rollback_hint st <> ""))
       (steps (PlannerV2.propose_plan lower sha256_hexdigest seed wanted
                 context now))
  /\ is_complete
       (run (drive_successes
               (steps (PlannerV2.propose_plan lower sha256_hexdigest seed wanted
                         context now)))
            (PlannerV2.propose_plan lower sha256_hexdigest seed wanted context
               now, fresh_state)).1
       (run (drive_successes
               (steps (PlannerV2.propose_plan lower sha256_hexdigest seed wanted
                         context now)))
            (PlannerV2.propose_plan lower sha256_hexdigest seed wanted context
               now, fresh_state)).2
     = true.
Proof.
  assert (dependency_ordered
            (PlannerV2.propose_plan lower sha256_hexdigest seed wanted context now)
          = true) as Hord.
  { unfold PlannerV2.propose_plan.
    destruct (String.eqb _ "repair"); [reflexivity|].
    destruct (String.eqb _ "feature"); reflexivity. }
  split_and!; try done.
  - unfold PlannerV2.propose_plan.
    destruct (String.eqb _ "repair"); [reflexivity|].
    destruct (String.eqb _ "feature"); reflexivity.
  - unfold PlannerV2.propose_plan.
    destruct (String.eqb _ "repair"); [reflexivity|].
    destruct (String.eqb _ "feature"); reflexivity.
  - unfold PlannerV2.propose_plan.
    destruct (String.eqb _ "repair"); [reflexivity|].
    destruct (String.eqb _ "feature"); reflexivity.
  - unfold PlannerV2.propose_plan.
    destruct (String.eqb _ "repair"); [|destruct (String.eqb _ "feature")];
      simpl; repeat constructor; simpl; congruence.
  - destruct (drive_successes_run
                (steps (PlannerV2.propose_plan lower sha256_hexdigest seed
                          wanted context now))
                [] (PlannerV2.propose_plan lower sha256_hexdigest seed wanted
                      context now) fresh_state)
      as (Hs & Hh & _); [done..|].
    unfold is_complete. rewrite Hh, Hs. apply forallb_forall.
    intros st Hst. apply list_elem_of_In, list_elem_of_fmap in Hst
      as (z & -> & _). done.
Qed.

Lemma contains_app (kw a b : string) : contains kw (a +:+ kw +:+ b) = true.
Proof.
  induction a as [|c a IH].
  - change (EmptyString +:+ kw +:+ b) with (kw +:+ b).
    pose proof (string_prefix_app kw b) as Hp.
    destruct (kw +:+ b); cbn [contains]; by rewrite Hp.
  - change (String c a +:+ kw +:+ b) with (String c (a +:+ kw +:+ b)).
    cbn [contains]. rewrite IH. apply orb_true_r.
Qed.

(** X11: The goal type is decided by substrings of the lower-cased goal, and the
    repair keywords are looked for first: a goal in which [fix], [repair],
    [failing test], [broken] or [bug] occurs anywhere, inside a longer word
    or next to a feature keyword, gets the repair template. *)
Theorem repair_keyword_wins (lower sha256_hexdigest : string -> string)
    (seed : Z) (wanted : string) (context : gmap string string)
    (now : datetime) (kw before after : string) :
  kw ∈ ["fix"; "repair"; "failing test"; "broken"; "bug"] ->
  lower wanted = before +:+ kw +:+ after ->
  PlannerV2._detect_goal_type lower wanted = "repair"
  /\ PlannerV2.propose_plan lower sha256_hexdigest seed wanted context now
     = PlannerV2._propose_repair_plan
         (PlannerV2._generate_plan_id sha256_hexdigest seed wanted) wanted
         context now.
Proof.
  intros Hkw Hlower.
  assert (PlannerV2._detect_goal_type lower wanted = "repair") as Htype.
  { unfold PlannerV2._detect_goal_type.
    assert (existsb (fun kw => contains kw (lower wanted))
              ["fix"; "repair"; "failing test"; "broken"; "bug"] = true)
      as ->; [|done].
    apply existsb_exists. exists kw. split; [by apply list_elem_of_In|].
    rewrite Hlower. apply contains_app. }
  split; [done|]. unfold PlannerV2.propose_plan. by rewrite Htype.
Qed.

(** [Add a prefix to the names] reads as a repair: [fix] occurs in [prefix]. *)
Lemma repair_keyword_wins_witness :
  PlannerV2._detect_goal_type lower_ascii "Add a prefix to the names"
  = "repair"
  /\ PlannerV2.propose_plan lower_ascii example_sha256 0
       "Add a prefix to the names" ∅ example_now
     = PlannerV2._propose_repair_plan
         (PlannerV2._generate_plan_id example_sha256 0
            "Add a prefix to the names")
         "Add a prefix to the names" ∅ example_now.
Proof.
  apply (repair_keyword_wins lower_ascii example_sha256 0
           "Add a prefix to the names" ∅ example_now
           "fix" "add a pre" " to the names").
  - apply list_elem_of_In. simpl. auto.
  - vm_compute. reflexivity.
Defined.

(** X12: With a digest of 64 hexadecimal digits, a plan id is [plan-] followed by
    the first 12 of them: 17 characters. *)
Theorem plan_id_shape (sha256_hexdigest : string -> string) (seed : Z)
    (wanted : string) :
  String.length (sha256_hexdigest (wanted +:+ ":" +:+ pretty seed)) = 64%nat ->
  PlannerV2._generate_plan_id sha256_hexdigest seed wanted
  = "plan-"
    +:+ String.substring 0 12
          (sha256_hexdigest (wanted +:+ ":" +:+ pretty seed))
  /\ String.length (PlannerV2._generate_plan_id sha256_hexdigest seed wanted)
     = 17%nat
  /\ String.prefix "plan-"
       (PlannerV2._generate_plan_id sha256_hexdigest seed wanted) = true.
Proof.
  intros Hlen. unfold PlannerV2._generate_plan_id. split_and!; [done| |].
  - rewrite string_length_app, substring_length, Hlen. done.
  - apply string_prefix_app.
Qed.

Lemma plan_id_shape_witness :
  PlannerV2._generate_plan_id example_sha256 0 "Fix the failing test"
  = "plan-"
    +:+ String.substring 0 12
          (example_sha256 ("Fix the failing test" +:+ ":" +:+ pretty 0))
  /\ String.length
       (PlannerV2._generate_plan_id example_sha256 0 "Fix the failing test")
     = 17%nat
  /\ String.prefix "plan-"
       (PlannerV2._generate_plan_id example_sha256 0 "Fix the failing test")
     = true.
Proof. apply plan_id_shape. vm_compute. reflexivity. Defined.
(** * Further properties of the artifact log *)


Section RecordingFacts.

Variable sha256_hexdigest : string -> string.
Variable plan_to_json : Plan -> string.
Variable task_spec_dumps : ControllerTaskSpec -> string.
Variable outcome_dumps : ControllerOutcome -> string.


End RecordingFacts.







Lemma strftime_compact_key (d1 d2 : datetime) :
  datetime_key d1 = datetime_key d2 ->
  strftime_compact d1 = strftime_compact d2.
Proof.
  unfold datetime_key, strftime_compact.
  by intros [= -> -> -> -> -> ->].
Qed.

(** X15: Two starts of one plan whose clock readings fall in the same second get
    the same id, and the second start replaces the active record of the
    first: whatever steps were recorded under the id are gone, the record is
    that of a run just started. *)
Theorem same_second_same_id
    (plan_to_json : Plan -> string) (self log : PlanArtifactLog.t)
    (plan : Plan) (fingerprint fingerprint' : string)
    (metadata metadata' : option (gmap string json))
    (now_id now_start now_id' now_start' : datetime) :
  datetime_key now_id = datetime_key now_id' ->
  (PlanArtifactLog.record_plan_start plan_to_json log plan fingerprint'
     metadata' now_id' now_start').1
  = (PlanArtifactLog.record_plan_start plan_to_json self plan fingerprint
       metadata now_id now_start).1
  /\ PlanArtifactLog.active_artifacts
       (PlanArtifactLog.record_plan_start plan_to_json log plan fingerprint'
          metadata' now_id' now_start').2
     !! (PlanArtifactLog.record_plan_start plan_to_json self plan fingerprint
           metadata now_id now_start).1
     = Some (PlanArtifactLog.mkActive (plan_id plan) (plan_to_json plan)
               fingerprint' [] (isoformat now_start') "" "running"
               (default ∅ metadata')).
Proof.
  intros Hkey. unfold PlanArtifactLog.record_plan_start,
    PlanArtifactLog._timestamp. simpl.
  rewrite (strftime_compact_key now_id now_id' Hkey). split; [done|].
  apply lookup_insert_eq.
Qed.

(** The linear plan, with two steps reported, started again half a second
    after its first start. *)
Lemma same_second_same_id_witness :
  (PlanArtifactLog.record_plan_start example_plan_to_json
     (record_steps example_sha256 example_task_spec_dumps
        example_outcome_dumps
        (PlanArtifactLog.record_plan_start example_plan_to_json empty_log
           (linear_plan MED) "fingerprint" None example_now example_now).2
        (PlanArtifactLog.record_plan_start example_plan_to_json empty_log
           (linear_plan MED) "fingerprint" None example_now example_now).1
        example_records)
     (linear_plan MED) "fingerprint" None example_now_later
     example_now_later).1
  = (PlanArtifactLog.record_plan_start example_plan_to_json empty_log
       (linear_plan MED) "fingerprint" None example_now example_now).1
  /\ PlanArtifactLog.active_artifacts
       (PlanArtifactLog.record_plan_start example_plan_to_json
          (record_steps example_sha256 example_task_spec_dumps
             example_outcome_dumps
             (PlanArtifactLog.record_plan_start example_plan_to_json
                empty_log (linear_plan MED) "fingerprint" None example_now
                example_now).2
             (PlanArtifactLog.record_plan_start example_plan_to_json
                empty_log (linear_plan MED) "fingerprint" None example_now
                example_now).1
             example_records)
          (linear_plan MED) "fingerprint" None example_now_later
          example_now_later).2
     !! (PlanArtifactLog.record_plan_start example_plan_to_json empty_log
           (linear_plan MED) "fingerprint" None example_now example_now).1
     = Some (PlanArtifactLog.mkActive (plan_id (linear_plan MED))
               (example_plan_to_json (linear_plan MED)) "fingerprint" []
               (isoformat example_now_later) "" "running" (default ∅ None)).
Proof. apply same_second_same_id. reflexivity. Defined.

(** ** Reading documents back *)

Ltac lookups :=
  unfold getitem, get_default;
  repeat (cbn [mbind result_bind mret result_ret as_str as_int as_dict
               as_list];
          first [ rewrite lookup_delete_eq
                | rewrite lookup_delete_ne by done
                | rewrite lookup_insert_eq
                | rewrite lookup_insert_ne by done
                | rewrite lookup_empty
                | rewrite traverse_step_artifacts
                | rewrite traverse_as_str ]).

(** X16: A document that lacks a required key is refused with a [KeyError] for
    that key (the first one missing, in the order of the fields); one that
    lacks [step_artifacts] and [metadata], or a step without
    [files_touched], is read with these empty. *)
Theorem from_dict_missing_keys (a : PlanArtifact.t) (s : StepArtifact.t)
    (key : string) :
  key ∈ ["plan_id"; "plan_json"; "repo_fingerprint"; "start_time";
         "end_time"; "final_status"] ->
  PlanArtifact.from_dict (delete key (PlanArtifact.to_dict a))
  = Raise (KeyError key)
  /\ PlanArtifact.from_dict ∅ = Raise (KeyError "plan_id")
  /\ PlanArtifact.from_dict
       (delete "step_artifacts" (delete "metadata" (PlanArtifact.to_dict a)))
     = Ok (PlanArtifact.mk (PlanArtifact.plan_id a) (PlanArtifact.plan_json a)
             (PlanArtifact.repo_fingerprint a) [] (PlanArtifact.start_time a)
             (PlanArtifact.end_time a) (PlanArtifact.final_status a) ∅)
  /\ StepArtifact.from_dict (delete "files_touched" (StepArtifact.to_dict s))
     = Ok (StepArtifact.mk (StepArtifact.step_id s)
             (StepArtifact.task_spec_json s) (StepArtifact.outcome_json s)
             (StepArtifact.diff_summary_hash s) (StepArtifact.wall_clock_ms s)
             (StepArtifact.timestamp s) []).
Proof.
  intros Hkey. split_and!.
  - apply list_elem_of_In in Hkey. simpl in Hkey.
    unfold PlanArtifact.from_dict, PlanArtifact.to_dict.
    destruct Hkey as [<-|[<-|[<-|[<-|[<-|[<-|[]]]]]]]; lookups; done.
  - unfold PlanArtifact.from_dict. lookups. done.
  - unfold PlanArtifact.from_dict, PlanArtifact.to_dict. lookups. done.
  - unfold StepArtifact.from_dict, StepArtifact.to_dict. lookups. done.
Qed.

Lemma from_dict_missing_keys_witness :
  PlanArtifact.from_dict (delete "end_time" (PlanArtifact.to_dict example_artifact))
  = Raise (KeyError "end_time")
  /\ PlanArtifact.from_dict ∅ = Raise (KeyError "plan_id")
  /\ PlanArtifact.from_dict
       (delete "step_artifacts"
          (delete "metadata" (PlanArtifact.to_dict example_artifact)))
     = Ok (PlanArtifact.mk "p" "p" "fingerprint" []
             "2026-01-01T00:00:00+00:00" "2026-01-01T00:10:00+00:00"
             "success" ∅)
  /\ StepArtifact.from_dict
       (delete "files_touched" (StepArtifact.to_dict example_step_artifact))
     = Ok (StepArtifact.mk "a" "a" "a" "9f86d081884c7d65" 120
             "2026-11-04T09:30:15+00:00" []).
Proof.
  apply (from_dict_missing_keys example_artifact example_step_artifact
           "end_time").
  apply list_elem_of_In. simpl. auto 10.
Defined.

Lemma substring_prefix (n : nat) (s : string) :
  String.prefix (String.substring 0 n s) s = true.
Proof.
  revert s. induction n as [|n IH]; intros [|c s]; simpl; try done.
  destruct (Ascii.ascii_dec c c); [apply IH|done].
Qed.

(** X17: With a digest of 64 hexadecimal digits, the hash recorded for a diff is
    its first 16 digits; in any case it is a beginning of the digest of at
    most 16 characters. *)
Theorem hash_diff_length (sha256_hexdigest : string -> string)
    (diff : string) :
  String.length (sha256_hexdigest diff) = 64%nat ->
  String.length (PlanArtifactLog._hash_diff sha256_hexdigest diff) = 16%nat
  /\ String.prefix (PlanArtifactLog._hash_diff sha256_hexdigest diff)
       (sha256_hexdigest diff) = true.
Proof.
  intros Hlen. unfold PlanArtifactLog._hash_diff.
  split; [by rewrite substring_length, Hlen|apply substring_prefix].
Qed.

Lemma hash_diff_length_witness :
  String.length (PlanArtifactLog._hash_diff example_sha256 "diff") = 16%nat
  /\ String.prefix (PlanArtifactLog._hash_diff example_sha256 "diff")
       (example_sha256 "diff") = true.
Proof. apply hash_diff_length. vm_compute. reflexivity. Defined.

(** ** Single-in-flight execution *)

Lemma count_active_zero (plan : Plan) (k : nat) (st : Step) :
  count_active plan = 0%nat -> steps plan !! k = Some st ->
  status st <> ACTIVE.
Proof.
  unfold count_active. intros Hc Hk Hst.
  apply length_zero_iff_nil in Hc.
  assert (In st (List.filter (fun s => StepStatus_eqb (status s) ACTIVE)
                   (steps plan))) as Hin.
  { apply List.filter_In. split.
    - by apply list_elem_of_In, (list_elem_of_lookup_2 _ k).
    - by rewrite Hst. }
  by rewrite Hc in Hin.
Qed.

Lemma no_active_count (l : list Step) :
  (forall (k : nat) (st : Step), l !! k = Some st -> status st <> ACTIVE) ->
  length (List.filter (fun s => StepStatus_eqb (status s) ACTIVE) l) = 0%nat.
Proof.
  induction l as [|a l IH]; intros Hno; [done|]. simpl.
  destruct (StepStatus_eqb (status a) ACTIVE) eqn:Ha.
  - apply StepStatus_eqb_eq in Ha. by destruct (Hno 0%nat a).
  - apply IH. intros k st Hk. by apply (Hno (S k)).
Qed.

Lemma unique_active_count (l : list Step) :
  (forall (i k : nat) (x st : Step),
      l !! i = Some x -> l !! k = Some st ->
      status x = ACTIVE -> status st = ACTIVE -> i = k) ->
  (length (List.filter (fun s => StepStatus_eqb (status s) ACTIVE) l) <= 1)%nat.
Proof.
  induction l as [|a l IH]; intros Huniq; simpl; [lia|].
  destruct (StepStatus_eqb (status a) ACTIVE) eqn:Ha.
  - apply StepStatus_eqb_eq in Ha. simpl.
    rewrite no_active_count; [lia|].
    intros k st Hk Hst.
    by specialize (Huniq 0%nat (S k) a st eq_refl Hk Ha Hst).
  - apply IH. intros i k x st Hi Hk Hx Hst.
    by specialize (Huniq (S i) (S k) x st Hi Hk Hx Hst) as [= ->].
Qed.

Lemma active_first_unique (plan : Plan) (i k : nat) (x st : Step) :
  active_first plan ->
  steps plan !! i = Some x -> steps plan !! k = Some st ->
  status x = ACTIVE -> status st = ACTIVE -> i = k.
Proof.
  intros Hinv Hi Hk Hx Hst.
  destruct (Nat.lt_trichotomy i k) as [Hlt|[->|Hlt]]; [|done|].
  - specialize (Hinv k i st x Hk Hst Hlt Hi).
    unfold dispatchable in Hinv. by rewrite Hx in Hinv.
  - specialize (Hinv i k x st Hi Hx Hlt Hk).
    unfold dispatchable in Hinv. by rewrite Hst in Hinv.
Qed.

Lemma active_first_count (plan : Plan) :
  active_first plan -> (count_active plan <= 1)%nat.
Proof.
  intros Hinv. apply unique_active_count. intros i k x st.
  by apply active_first_unique.
Qed.

Lemma no_active_first (plan : Plan) :
  (forall (k : nat) (st : Step),
      steps plan !! k = Some st -> status st <> ACTIVE) ->
  active_first plan.
Proof. intros Hno k i st x Hk Hst. by destruct (Hno k st). Qed.

Lemma store_lookup (plan : Plan) (r k : nat) (st' st : Step) :
  steps (store_step plan r st') !! k = Some st ->
  (k = r /\ st = st') \/ (k <> r /\ steps plan !! k = Some st).
Proof.
  unfold store_step. simpl. intros Hk.
  destruct (decide (k = r)) as [->|Hne].
  - left. split; [done|].
    assert (r < length (steps plan))%nat as Hlt.
    { apply lookup_lt_Some in Hk. by rewrite length_insert in Hk. }
    rewrite list_lookup_insert_eq in Hk by done. congruence.
  - right. split; [done|]. by rewrite list_lookup_insert_ne in Hk.
Qed.

Lemma apply_op_active_first (op : Op) (w : World) :
  active_first w.1 ->
  match op with
  | RevisePlan _ => count_active w.1 = 0%nat
  | _ => True
  end ->
  active_first (apply_op op w).1.
Proof.
  destruct w as [plan state]. simpl. intros Hinv Hidle.
  op_cases plan state op; cbn [fst snd]; try done;
    try (exfalso; apply list_find_Some in Hfind as (_ & Hd & _);
         unfold dispatchable in Hd; rewrite Hstatus in Hd;
         discriminate Hd);
    try (apply get_step_lookup in Hget; apply StepStatus_eqb_eq in Hactive;
         apply no_active_first; intros k' st' Hk' Hst';
         apply store_lookup in Hk' as [[-> ->]|[Hne Hk']]; [done|];
         by apply Hne, (active_first_unique plan k' k st' st));
    try (apply no_active_first; intros k' st' Hk' Hst';
         apply store_lookup in Hk' as [[-> ->]|[Hne Hk']]; [done|];
         by apply (count_active_zero plan k' st')).
  apply list_find_Some in Hfind as (Hk & Hd & Hmin).
  intros k' i st' x Hk' Hst' Hi Hx.
  apply store_lookup in Hk' as [[-> ->]|[Hne Hk']].
  - apply store_lookup in Hx as [[-> ->]|[_ Hx]]; [lia|].
    rewrite (dispatchable_store plan k st (set_status ACTIVE st) x Hk);
      [|done|by rewrite Hstatus|done].
    apply not_true_is_false. by apply (Hmin i x).
  - exfalso.
    destruct (decide (k < k')%nat) as [Hlt|Hge].
    + specialize (Hinv k' k st' st Hk' Hst' Hlt Hk). congruence.
    + apply (Hmin k' st' Hk'); [lia|].
      unfold dispatchable. by rewrite Hst'.
Qed.

Lemma run_active_first (ops : list Op) :
  forall w : World,
    active_first w.1 -> revises_when_idle ops w = true ->
    active_first (run ops w).1.
Proof.
  induction ops as [|op ops IH]; intros w Hinv Hidle; [done|].
  simpl in Hidle. apply andb_true_iff in Hidle as [Hop Hidle].
  rewrite run_cons. apply IH; [|done].
  apply apply_op_active_first; [done|].
  destruct op; try done. by apply Nat.eqb_eq.
Qed.

(** X18: Single-in-flight execution under the caller's protocol: when no step is
    [ACTIVE] to begin with and [revise_plan] is only called while no step is
    [ACTIVE], at most one step is [ACTIVE] after any sequence of calls. *)
Theorem single_in_flight (ops : list Op) (plan : Plan) (state : PlanState) :
  count_active plan = 0%nat ->
  revises_when_idle ops (plan, state) = true ->
  (count_active (run ops (plan, state)).1 <= 1)%nat.
Proof.
  intros Hnone Hidle. apply active_first_count, run_active_first; [|done].
  apply no_active_first. intros k st. by apply count_active_zero.
Qed.

(** Scenario A: each revision follows the report of a failure. *)
Lemma single_in_flight_witness :
  (count_active (run scenario_A (linear_plan MED, fresh_state)).1 <= 1)%nat.
Proof. apply single_in_flight; vm_compute; reflexivity. Defined.

(** ** The life of a step *)

Lemma step_transition_terminal (st st' : Step) :
  step_transition st st' -> status st <> DONE /\ status st <> SKIPPED.
Proof. intros [H|p H|H|H H1|reason H H2 Hskip]; rewrite H; done. Qed.

Lemma apply_op_terminal (op : Op) (w : World) (i : nat) (st : Step) :
  steps w.1 !! i = Some st -> status st = DONE \/ status st = SKIPPED ->
  steps (apply_op op w).1 !! i = Some st.
Proof.
  intros Hi Hst. destruct (apply_op_transition op w) as [Ht _].
  destruct (plan_transition_lookup _ _ i st Ht Hi) as [H|(st' & Hs & H)];
    [done|].
  apply step_transition_terminal in Hs as [Hd Hs]. by destruct Hst.
Qed.

(** X19: [DONE] and [SKIPPED] are final for a step: through any sequence of
    calls a step that is [DONE] or [SKIPPED] stays exactly as it is, with
    the outcome stored in it; it is never dispatched, failed or revised
    again. *)
Theorem finished_step_is_frozen (ops : list Op) (plan : Plan)
    (state : PlanState) (i : nat) (st : Step) :
  steps plan !! i = Some st -> status st = DONE \/ status st = SKIPPED ->
  steps (run ops (plan, state)).1 !! i = Some st.
Proof.
  intros Hi Hst.
  apply (run_invariant (fun w => steps w.1 !! i = Some st)); [|done].
  intros op w Hw. by apply apply_op_terminal.
Qed.

(** The linear plan with its three steps done: [a] stays as it is when a
    failure is reported for it and revised. *)
Lemma finished_step_is_frozen_witness :
  steps (run [UpdateState (failure_of "a"); RevisePlan (failure_of "a");
              NextStep]
             (finished_world.1, finished_world.2)).1 !! 0%nat
  = Some (completed (simple_step "a" [] LOW)).
Proof.
  apply finished_step_is_frozen; [vm_compute; reflexivity|by left].
Defined.

Lemma step_transition_ceiling (st st' : Step) :
  step_transition st st' -> within_ceiling st -> within_ceiling st'.
Proof.
  unfold within_ceiling, StepLifecycle.RETRY_CEILING.
  intros [H|p H|H|H H1|reason H H2 Hskip] [Hb Hc]; simpl.
  - split; [lia|]. intros Hfc. destruct (Hc Hfc); congruence.
  - split; [lia|]. intros Hfc. destruct (Hc Hfc); congruence.
  - assert (failure_count st <> 2) as Hne.
    { intros Hfc. destruct (Hc Hfc); congruence. }
    split; [lia|auto].
  - split; [lia|]. intros; lia.
  - split; [lia|auto].
Qed.

Lemma apply_op_ceiling (op : Op) (w : World) :
  Forall within_ceiling (steps w.1) ->
  Forall within_ceiling (steps (apply_op op w).1).
Proof.
  intros Hall. destruct (apply_op_transition op w) as [Ht _].
  destruct Ht as [->|(k & st & st' & v & Hk & Hs & ->)]; [done|]. simpl.
  apply Forall_insert; [done|].
  apply (step_transition_ceiling st st' Hs).
  rewrite Forall_forall in Hall. apply Hall.
  by eapply list_elem_of_lookup_2.
Qed.

(** X20: No step fails more than twice: in a run that starts with every
    failure count at 0, every failure count stays between 0 and the retry
    ceiling of 2, and a step whose count has reached 2 is [FAILED] or
    [SKIPPED] - it is not dispatched again. *)
Theorem failure_count_within_ceiling (ops : list Op) (plan : Plan)
    (state : PlanState) :
  Forall (fun st => failure_count st = 0) (steps plan) ->
  Forall within_ceiling (steps (run ops (plan, state)).1).
Proof.
  intros Hzero.
  apply (run_invariant (fun w => Forall within_ceiling (steps w.1))).
  - apply apply_op_ceiling.
  - simpl. eapply Forall_impl; [exact Hzero|].
    intros st Hst. unfold within_ceiling, StepLifecycle.RETRY_CEILING.
    rewrite Hst. split; [lia|]. intros; lia.
Qed.

(** Scenario A, in which [b] fails twice. *)
Lemma failure_count_within_ceiling_witness :
  Forall within_ceiling
    (steps (run scenario_A (linear_plan MED, fresh_state)).1).
Proof.
  apply failure_count_within_ceiling. simpl. repeat constructor.
Defined.

(** A dependency that is satisfied stays satisfied when a step that is not
    [DONE] is mutated. *)
Lemma dependency_done_kept (plan : Plan) (k : nat) (st st' : Step)
    (dep : string) :
  steps plan !! k = Some st -> step_id st' = step_id st ->
  status st <> DONE ->
  StepLifecycle.dependency_done plan dep = true ->
  StepLifecycle.dependency_done (store_step plan k st') dep = true.
Proof.
  intros Hk Hid Hst. unfold StepLifecycle.dependency_done.
  rewrite (get_step_store plan k st st' dep Hk Hid).
  destruct (get_step plan dep) as [[i d]|] eqn:Hg; simpl; [|done].
  destruct (decide (i = k)) as [->|Hne]; [|done].
  apply get_step_lookup in Hg. unfold StepRef in *.
  assert (d = st) as -> by congruence.
  intros Hd. apply StepStatus_eqb_eq in Hd. done.
Qed.

Lemma dependencies_done_store (plan : Plan) (k : nat) (st st' : Step) :
  dependencies_done plan ->
  steps plan !! k = Some st -> step_id st' = step_id st ->
  dependencies st' = dependencies st -> status st <> DONE ->
  (status st = PENDING -> status st' <> PENDING ->
   Forall (fun dep => StepLifecycle.dependency_done plan dep = true)
          (dependencies st)) ->
  dependencies_done (store_step plan k st').
Proof.
  intros Hinv Hk Hid Hdeps Hst Hactivated i x Hi Hx.
  assert (Forall (fun dep => StepLifecycle.dependency_done plan dep = true)
            (dependencies x)) as Hold.
  { apply store_lookup in Hi as [[-> ->]|[Hne Hi]].
    - rewrite Hdeps. destruct (status st) eqn:Hp;
        try (apply (Hinv k st); [done|by rewrite Hp]).
      by apply Hactivated.
    - by apply (Hinv i x). }
  eapply Forall_impl; [exact Hold|].
  intros dep Hdep. by apply (dependency_done_kept plan k st st').
Qed.

Lemma apply_op_dependencies (op : Op) (w : World) :
  dependencies_done w.1 -> dependencies_done (apply_op op w).1.
Proof.
  destruct w as [plan state]. simpl. intros Hinv.
  op_cases plan state op; cbn [fst snd]; try done;
    try (exfalso; apply list_find_Some in Hfind as (_ & Hd & _);
         unfold dispatchable in Hd; rewrite Hstatus in Hd;
         discriminate Hd);
    try (apply list_find_Some in Hfind as (Hk & Hd & _);
         unfold dispatchable in Hd; rewrite Hstatus in Hd;
         apply can_activate_true in Hd as [_ Hd]);
    try (apply get_step_lookup in Hget; rename Hget into Hk);
    try (apply StepStatus_eqb_eq in Hactive);
    try (apply andb_true_iff in Hreset as [Hfailed _]);
    try (apply StepStatus_eqb_eq in Hfailed);
    (apply (dependencies_done_store plan k st); try done; congruence).
Qed.

(** X21: Dependencies are respected: in a run that starts with every step
    [PENDING], every step that has been dispatched - it is [ACTIVE], [DONE],
    [FAILED] or [SKIPPED] - has all its dependencies resolved to [DONE]
    steps; no step is handed out before the steps it depends on are done. *)
Theorem dependencies_respected (ops : list Op) (plan : Plan)
    (state : PlanState) (i : nat) (st : Step) :
  Forall (fun x => status x = PENDING) (steps plan) ->
  steps (run ops (plan, state)).1 !! i = Some st ->
  status st <> PENDING ->
  Forall (fun dep =>
            StepLifecycle.dependency_done (run ops (plan, state)).1 dep = true)
         (dependencies st).
Proof.
  intros Hpending.
  apply (run_invariant (fun w => dependencies_done w.1)).
  - apply apply_op_dependencies.
  - intros k x Hk Hx. rewrite Forall_forall in Hpending.
    destruct Hx. apply Hpending. by eapply list_elem_of_lookup_2.
Qed.

(** Scenario A: [b], which has failed twice and is skipped, depends on [a],
    which is done. *)
Lemma dependencies_respected_witness :
  Forall (fun dep =>
            StepLifecycle.dependency_done
              (run scenario_A (linear_plan MED, fresh_state)).1 dep = true)
         (dependencies
            (set_skip_reason (Some "Non-critical step failed twice")
               (set_status SKIPPED
                  (set_failure_count 2 (simple_step "b" ["a"] MED))))).
Proof.
  apply (dependencies_respected scenario_A (linear_plan MED) fresh_state
           1%nat).
  - simpl. repeat constructor.
  - vm_compute. reflexivity.
  - discriminate.
Defined.
